(** * agent-browser: the lightweight CLI client ([src/cli-light.ts])

    A shallow embedding of the client: the command encoder
    ([parseCommand], [parseBatchCommands]), the transport
    ([sendCommand]), the daemon supervisor ([isDaemonRunning],
    [ensureDaemon]) and the batch executor ([runBatch]), followed by the
    properties of the specification that were checked against them.

    Conventions.
    - A JavaScript string is a [string]; its characters are read as code
      units 0..255.
    - [undefined] is [None] where the code reads an array slot
      ([rest[0]]) and [VUndef] once it is stored in an object.
    - A [Record<string, unknown>] is a [gmap string jsval].
    - What the Node runtime supplies ([JSON.parse], [JSON.stringify],
      [Math.random], [path.join], the file system, [process.kill]) is a
      parameter: a class of the runtime, or a field of the world. *)

From stdpp Require Import gmap strings list fin_maps pretty.
From Stdlib Require Import ZArith Ascii String Lia Sorted.

Open Scope string_scope.

(** ** JavaScript values and string primitives *)

(** The numbers the client computes all come from [parseInt(_, 10)]: a
    double that is an integer, an infinity, or [NaN].  [Fin z] is the
    double whose value is the integer [z]. *)
Inductive jsnum : Type :=
  | NaN
  | Fin (z : Z)
  | Inf (negative : bool).

(** The double nearest to a natural number [z] (ties to even): [z] itself
    below 2^53; above, the 53 leading bits of [z], rounded; an infinity
    from 2^1024 on. *)
Definition round_nat (z : Z) : option Z :=
  if (z <? 2 ^ 53)%Z then Some z
  else
    let e := (Z.log2 z - 52)%Z in
    let q := (z / 2 ^ e)%Z in
    let r := (z mod 2 ^ e)%Z in
    let half := (2 ^ (e - 1))%Z in
    let q' := if (half <? r)%Z || ((r =? half)%Z && Z.odd q) then (q + 1)%Z else q in
    if (2 ^ 1024 <=? q' * 2 ^ e)%Z then None else Some (q' * 2 ^ e)%Z.

(** The double nearest to an integer. *)
Definition to_double (z : Z) : jsnum :=
  match round_nat (Z.abs z) with
  | Some m => Fin (if (z <? 0)%Z then - m else m)%Z
  | None => Inf (z <? 0)%Z
  end.

(** The values the encoder stores in a request: primitives only. *)
Inductive jsval : Type :=
  | VUndef
  | VNull
  | VBool (b : bool)
  | VNum (n : jsnum)
  | VStr (s : string).

(** What [JSON.parse] can return; a number is kept as it is written. *)
#[warnings="-register-all"]
Inductive json : Type :=
  | JNull
  | JBool (b : bool)
  | JNum (lexeme : string)
  | JStr (s : string)
  | JArr (items : list json)
  | JObj (fields : list (string * json)).

(** [String(v)]. *)
Definition js_String (v : jsval) : string :=
  match v with
  | VUndef => "undefined"
  | VNull => "null"
  | VBool true => "true"
  | VBool false => "false"
  | VNum NaN => "NaN"
  | VNum (Fin z) => pretty z
  | VNum (Inf false) => "Infinity"
  | VNum (Inf true) => "-Infinity"
  | VStr s => s
  end.

(** [rest[i]] stored as a property value. *)
Definition js_of (o : option string) : jsval :=
  match o with
  | Some s => VStr s
  | None => VUndef
  end.

(** [`${x}`] for an array slot [x]: [undefined] prints as its name. *)
Definition template_of (o : option string) : string :=
  match o with
  | Some s => s
  | None => "undefined"
  end.

Definition dquote : ascii := "034"%char.
Definition newline : ascii := "010"%char.

(** [\s] of a regular expression, and the white space [trim] and
    [parseInt] strip: TAB, LF, VT, FF, CR, SP and NBSP in this range. *)
Definition is_ws (c : ascii) : bool :=
  let n := nat_of_ascii c in
  ((9 <=? n)%nat && (n <=? 13)%nat) || (n =? 32)%nat || (n =? 160)%nat.

(** [\d]. *)
Definition is_digit (c : ascii) : bool :=
  let n := nat_of_ascii c in
  (48 <=? n)%nat && (n <=? 57)%nat.

Definition digit_value (c : ascii) : Z := (Z.of_nat (nat_of_ascii c) - 48)%Z.

Fixpoint all_digits (s : string) : bool :=
  match s with
  | EmptyString => true
  | String c s' => is_digit c && all_digits s'
  end.

(** [/^\d+$/.test(s)]. *)
Definition re_digits (s : string) : bool :=
  match s with
  | EmptyString => false
  | String _ _ => all_digits s
  end.

(** [/^\d+$/.test(x)] for an array slot: [undefined] is tested as the
    string "undefined". *)
Definition test_digits (o : option string) : bool := re_digits (template_of o).

Fixpoint drop_ws (s : string) : string :=
  match s with
  | EmptyString => EmptyString
  | String c s' => if is_ws c then drop_ws s' else s
  end.

Fixpoint string_rev (s : string) : string :=
  match s with
  | EmptyString => EmptyString
  | String c s' => string_rev s' +:+ String c EmptyString
  end.

(** [s.trim()]. *)
Definition js_trim (s : string) : string :=
  string_rev (drop_ws (string_rev (drop_ws s))).

(** A non-empty string is truthy. *)
Definition truthy_string (s : string) : bool :=
  match s with
  | EmptyString => false
  | String _ _ => true
  end.

(** [s.slice(a, b)] for [0 <= a <= b]. *)
Definition js_slice (a b : nat) (s : string) : string :=
  String.substring a (b - a) s.

(** [s.startsWith(p)]. *)
Definition startsWith (s p : string) : bool := String.prefix p s.

(** [x?.startsWith(p)] used as a condition: [undefined] is falsy. *)
Definition opt_startsWith (o : option string) (p : string) : bool :=
  match o with
  | Some s => startsWith s p
  | None => false
  end.

(** [xs.join(' ')] on an array of strings. *)
Definition join_space (xs : list string) : string := String.concat " " xs.

(** The digits [parseInt] reads: the value so far and whether a digit was
    seen; it stops at the first character that is not a digit. *)
Fixpoint read_digits (s : string) (acc : Z) (seen : bool) : option Z :=
  match s with
  | EmptyString => if seen then Some acc else None
  | String c s' =>
      if is_digit c then read_digits s' (10 * acc + digit_value c)%Z true
      else if seen then Some acc else None
  end.

(** [parseInt(s, 10)]: leading white space, an optional sign, the longest
    run of digits; [NaN] when there is none, and otherwise the double
    nearest to the integer the digits denote. *)
Definition parseInt10 (s : string) : jsnum :=
  match drop_ws s with
  | String "-" s' =>
      match read_digits s' 0%Z false with
      | Some z => to_double (- z)%Z
      | None => NaN
      end
  | String "+" s' =>
      match read_digits s' 0%Z false with
      | Some z => to_double z
      | None => NaN
      end
  | s' =>
      match read_digits s' 0%Z false with
      | Some z => to_double z
      | None => NaN
      end
  end.

(** [parseInt(x, 10)] for an array slot. *)
Definition parseInt10_of (o : option string) : jsnum := parseInt10 (template_of o).

(** The integer a string of decimal digits denotes. *)
Definition decimal_value (s : string) : Z :=
  fold_left (fun acc c => (10 * acc + digit_value c)%Z) (list_ascii_of_string s) 0%Z.

(** ** Command encoder ([parseCommand], [parseBatchCommands]) *)

(** A request is the object literal the encoder builds. *)
Abbreviation Request := (gmap string jsval).

(** [Math.random().toString(36)]: what the [n]-th call of the run yields.
    The encoder threads the number of calls made so far. *)
Class Random := { random36 : nat -> string }.

(** What [Math.random().toString(36)] can yield: "0" for the draw 0, and
    "0." followed by at least one base-36 digit for a draw in (0,1). *)
Definition is_base36 (c : ascii) : bool :=
  let n := nat_of_ascii c in
  is_digit c || ((97 <=? n)%nat && (n <=? 122)%nat).

Fixpoint all_base36 (s : string) : bool :=
  match s with
  | EmptyString => true
  | String c s' => is_base36 c && all_base36 s'
  end.

Definition unit_draw (s : string) : bool :=
  match s with
  | String "0" EmptyString => true
  | String "0" (String "." (String d ds)) => is_base36 d && all_base36 ds
  | _ => false
  end.

Definition slot_is (o : option string) (s : string) : bool :=
  match o with
  | Some x => String.eqb x s
  | None => false
  end.

(** [{ id, action }]. *)
Definition base (id action : string) : Request :=
  <["action" := VStr action]> (<["id" := VStr id]> ∅).

(** The loop over the arguments of [snapshot]: [rest[++i]] takes the next
    token as the value of [--depth] and [--selector], and is [undefined]
    when the flag is the last token. *)
Fixpoint snapshot_opts (rest : list string) (opts : Request) : Request :=
  match rest with
  | [] => opts
  | arg :: rest' =>
      if String.eqb arg "-i" || String.eqb arg "--interactive" then
        snapshot_opts rest' (<["interactive" := VBool true]> opts)
      else if String.eqb arg "-c" || String.eqb arg "--compact" then
        snapshot_opts rest' (<["compact" := VBool true]> opts)
      else if String.eqb arg "--depth" || String.eqb arg "-d" then
        match rest' with
        | [] => <["maxDepth" := VNum (parseInt10_of None)]> opts
        | v :: rest'' =>
            snapshot_opts rest'' (<["maxDepth" := VNum (parseInt10_of (Some v))]> opts)
        end
      else if String.eqb arg "--selector" || String.eqb arg "-s" then
        match rest' with
        | [] => <["selector" := js_of None]> opts
        | v :: rest'' => snapshot_opts rest'' (<["selector" := js_of (Some v)]> opts)
        end
      else snapshot_opts rest' opts
  end.

(** The [switch] of [parseCommand], for the identifier [id]. *)
Definition encode_verb (id command : string) (rest : list string) : option Request :=
  if String.eqb command "open" || String.eqb command "goto"
     || String.eqb command "navigate" then
    Some (<["url" := VStr (if opt_startsWith (rest !! 0) "http"
                           then template_of (rest !! 0)
                           else "https://" +:+ template_of (rest !! 0))]>
            (base id "navigate"))
  else if String.eqb command "click" then
    Some (<["selector" := js_of (rest !! 0)]> (base id "click"))
  else if String.eqb command "fill" then
    Some (<["value" := VStr (join_space (tail rest))]>
            (<["selector" := js_of (rest !! 0)]> (base id "fill")))
  else if String.eqb command "type" then
    Some (<["text" := VStr (join_space (tail rest))]>
            (<["selector" := js_of (rest !! 0)]> (base id "type")))
  else if String.eqb command "hover" then
    Some (<["selector" := js_of (rest !! 0)]> (base id "hover"))
  else if String.eqb command "snapshot" then
    Some (snapshot_opts rest (base id "snapshot"))
  else if String.eqb command "screenshot" then
    Some (<["path" := js_of (rest !! 0)]> (base id "screenshot"))
  else if String.eqb command "close" || String.eqb command "quit" then
    Some (base id "close")
  else if String.eqb command "get" then
    if slot_is (rest !! 0) "text" then
      Some (<["selector" := js_of (rest !! 1)]> (base id "gettext"))
    else if slot_is (rest !! 0) "url" then Some (base id "url")
    else if slot_is (rest !! 0) "title" then Some (base id "title")
    else None
  else if String.eqb command "press" then
    Some (<["key" := js_of (rest !! 0)]> (base id "press"))
  else if String.eqb command "wait" then
    if test_digits (rest !! 0) then
      Some (<["timeout" := VNum (parseInt10_of (rest !! 0))]> (base id "wait"))
    else Some (<["selector" := js_of (rest !! 0)]> (base id "wait"))
  else if String.eqb command "back" then Some (base id "back")
  else if String.eqb command "forward" then Some (base id "forward")
  else if String.eqb command "reload" then Some (base id "reload")
  else if String.eqb command "eval" then
    Some (<["script" := VStr (join_space rest)]> (base id "evaluate"))
  else None.

(** [parseCommand(parts)], started after [n] calls of [Math.random]: the
    request (or [null]) and the number of calls made afterwards.  No
    identifier is drawn for an empty token list. *)
Definition parseCommand `{Random} (parts : list string) (n : nat)
  : option Request * nat :=
  match parts with
  | [] => (None, n)
  | command :: rest =>
      let id := js_slice 2 10 (random36 n) in
      (encode_verb id command rest, S n)
  end.

(** *** Batch tokenization *)

(** The class of characters that are neither white space nor the double
    quote (written \x22 in the comments below). *)
Definition is_plain (c : ascii) : bool :=
  negb (is_ws c) && negb (Ascii.eqb c dquote).

Fixpoint has_dquote (s : string) : bool :=
  match s with
  | EmptyString => false
  | String c s' => Ascii.eqb c dquote || has_dquote s'
  end.

Definition flush (cur : string) (out : list string) : list string :=
  match cur with
  | EmptyString => out
  | String _ _ => cur :: out
  end.

(** [arg.match(/(?:[^\s\x22]+|\x22[^\x22]*\x22)+/g) || []], read left to
    right.
    [cur] is the match in progress (empty: none) and [inq] tells that a
    quoted piece is open.  A quote opens a piece only when a closing quote
    follows; otherwise no alternative matches there, the match in
    progress ends and the search resumes after the quote. *)
Fixpoint scan (s : string) (cur : string) (inq : bool) : list string :=
  match s with
  | EmptyString => flush cur []
  | String c s' =>
      if inq then scan s' (cur +:+ String c EmptyString) (negb (Ascii.eqb c dquote))
      else if is_plain c then scan s' (cur +:+ String c EmptyString) false
      else if Ascii.eqb c dquote && has_dquote s' then
        scan s' (cur +:+ String c EmptyString) true
      else flush cur (scan s' EmptyString false)
  end.

Definition match_tokens (arg : string) : list string := scan arg EmptyString false.

Fixpoint drop_last_dquote (s : string) : string :=
  match s with
  | EmptyString => EmptyString
  | String c EmptyString => if Ascii.eqb c dquote then EmptyString else s
  | String c s' => String c (drop_last_dquote s')
  end.

(** [p.replace(/^\x22|\x22$/g, '')]: a quote at the start and a quote at
    the end are removed. *)
Definition strip_quotes (p : string) : string :=
  match p with
  | String c p' => if Ascii.eqb c dquote then drop_last_dquote p' else drop_last_dquote p
  | EmptyString => EmptyString
  end.

(** The tokens [parseBatchCommands] passes to [parseCommand] for one
    command string. *)
Definition cleanParts (arg : string) : list string :=
  map strip_quotes (match_tokens arg).

(** One turn of the loop of [parseBatchCommands]: [commands] so far and the
    number of [Math.random] calls made. *)
Definition batch_step `{Random} (acc : list Request * nat) (arg : string)
  : list Request * nat :=
  let '(commands, n) := acc in
  match parseCommand (cleanParts arg) n with
  | (Some cmd, n') => ((commands ++ [cmd])%list, n')
  | (None, n') => (commands, n')
  end.

Definition parseBatchCommands `{Random} (args : list string) (n : nat)
  : list Request * nat :=
  fold_left batch_step args ([], n).

(** ** Transport ([sendCommand]) *)

(** [interface Response]; an absent [data] is [None], an absent [error]
    is [None]. *)
Record Response : Type := {
  resp_id : string;
  resp_success : bool;
  resp_data : option json;
  resp_error : option string;
}.

(** [JSON.stringify] of a request and [JSON.parse(_) as Response]
    ([None]: it throws).  The client trusts the daemon to answer with the
    shape of [Response], and so does this model: a line that parses to
    something else (null, a number, an object with no boolean [success])
    has no value here, and nothing below speaks of such an answer. *)
Class Json := {
  JSON_stringify : Request -> string;
  JSON_parse : string -> option Response;
}.

(** What the event loop delivers during one exchange: the four socket
    events the client listens to, and the 30 second timer.  [Data] carries
    [data.toString()], the text one chunk decodes to, which is what the
    handler appends to the buffer: every chunk is decoded on its own, so a
    character whose bytes are split over two chunks arrives as replacement
    characters in both texts. *)
Inductive event : Type :=
  | Connect
  | Data (chunk : string)
  | SocketError (message : string)
  | Close
  | Timeout.

(** A call of [resolve] or of [reject] (with the error's message). *)
Inductive outcome : Type :=
  | Resolved (response : Response)
  | Rejected (message : string).

(** The state of one call of [sendCommand]: its two variables, and what
    it did to the socket and to the promise. *)
Record exchange : Type := {
  buffer : string;
  resolved : bool;
  listening : bool;        (* the socket still has its listeners *)
  removed : nat;           (* calls of socket.removeAllListeners() *)
  destroyed : nat;         (* calls of socket.destroy() *)
  written : list string;   (* calls of socket.write *)
  settled : list outcome;  (* calls of resolve and reject, in order *)
}.

Definition fresh_exchange : exchange :=
  {| buffer := ""; resolved := false; listening := true; removed := 0;
     destroyed := 0; written := []; settled := [] |}.

Definition append_buffer (chunk : string) (x : exchange) : exchange :=
  {| buffer := buffer x +:+ chunk; resolved := resolved x;
     listening := listening x; removed := removed x;
     destroyed := destroyed x; written := written x; settled := settled x |}.

Definition set_resolved (x : exchange) : exchange :=
  {| buffer := buffer x; resolved := true; listening := listening x;
     removed := removed x; destroyed := destroyed x; written := written x;
     settled := settled x |}.

(** [cleanup()]. *)
Definition cleanup (x : exchange) : exchange :=
  {| buffer := buffer x; resolved := resolved x; listening := false;
     removed := S (removed x); destroyed := S (destroyed x);
     written := written x; settled := settled x |}.

Definition socket_write (line : string) (x : exchange) : exchange :=
  {| buffer := buffer x; resolved := resolved x; listening := listening x;
     removed := removed x; destroyed := destroyed x;
     written := (written x ++ [line])%list; settled := settled x |}.

(** [resolve(_)] and [reject(_)]. *)
Definition settle (o : outcome) (x : exchange) : exchange :=
  {| buffer := buffer x; resolved := resolved x; listening := listening x;
     removed := removed x; destroyed := destroyed x; written := written x;
     settled := (settled x ++ [o])%list |}.

Section Transport.
Context `{Json}.

Definition on_connect (cmd : Request) (x : exchange) : exchange :=
  socket_write (JSON_stringify cmd +:+ String newline "") x.

Definition on_data (chunk : string) (x : exchange) : exchange :=
  let x := append_buffer chunk x in
  match String.index 0 (String newline "") (buffer x) with
  | Some idx =>
      if resolved x then x
      else
        let x := set_resolved x in
        match JSON_parse (String.substring 0 idx (buffer x)) with
        | Some response => settle (Resolved response) (cleanup x)
        | None => settle (Rejected "Invalid JSON response") (cleanup x)
        end
  | None => x
  end.

Definition on_error (message : string) (x : exchange) : exchange :=
  if resolved x then x
  else settle (Rejected message) (cleanup (set_resolved x)).

Definition on_close (x : exchange) : exchange :=
  if negb (resolved x) && truthy_string (js_trim (buffer x)) then
    let x := set_resolved x in
    match JSON_parse (js_trim (buffer x)) with
    | Some response => settle (Resolved response) x
    | None => settle (Rejected "Connection closed") x
    end
  else x.

Definition on_timeout (x : exchange) : exchange :=
  if resolved x then x
  else settle (Rejected "Timeout") (cleanup (set_resolved x)).

(** One event.  A socket event runs its listener only while the socket
    has listeners; the timer is not a listener of the socket. *)
Definition step (cmd : Request) (x : exchange) (ev : event) : exchange :=
  match ev with
  | Timeout => on_timeout x
  | Connect => if listening x then on_connect cmd x else x
  | Data chunk => if listening x then on_data chunk x else x
  | SocketError message => if listening x then on_error message x else x
  | Close => if listening x then on_close x else x
  end.

Definition run (cmd : Request) (evs : list event) : exchange :=
  fold_left (step cmd) evs fresh_exchange.

(** The promise settles with the first call of [resolve] or [reject]. *)
Definition promise (x : exchange) : option outcome := head (settled x).

(** [await sendCommand(cmd)], when the socket emits [evs] before the
    timer fires: the exchange at that point, then the timer. *)
Definition sendCommand_exchange (cmd : Request) (evs : list event) : exchange :=
  run cmd (evs ++ [Timeout])%list.

Definition sendCommand (cmd : Request) (evs : list event) : outcome :=
  match promise (sendCommand_exchange cmd evs) with
  | Some o => o
  | None => Rejected "Timeout"
  end.
End Transport.

(** ** Batch executor ([runBatch]) *)

(** The daemon's side of a batch: the socket events of the exchange of a
    request, given the requests handed to [sendCommand] before it. *)
Class Daemon := { socket_events : list Request -> Request -> list event }.

(** [cmd.k]: an absent property reads as [undefined]. *)
Definition prop (cmd : Request) (k : string) : jsval :=
  match cmd !! k with
  | Some v => v
  | None => VUndef
  end.

(** A call of [console.log], by what it prints. *)
Inductive console_line : Type :=
  | LogAction (action : jsval)       (* [${cmd.action}] *)
  | LogResponse (response : Response) (* formatResponse(response) *)
  | LogBlank
  | LogError (message : string)
  | LogRule
  | LogCompleted (completed total : nat)
  | LogJson (success : bool) (results : list Response) (completed total : nat).

(** The variables of [runBatch], the console, and the requests handed to
    [sendCommand] with the lines written to the daemon. *)
Record batch : Type := {
  results : list Response;
  hasError : bool;
  console : list console_line;
  sent : list Request;
  wire : list string;
}.

(** What [runBatch] leaves behind: the aggregate it reports, the console,
    the exit code, and what was sent. *)
Record batch_run : Type := {
  run_success : bool;
  run_results : list Response;
  run_completed : nat;
  run_total : nat;
  run_console : list console_line;
  run_exit : Z;
  run_sent : list Request;
  run_wire : list string;
}.

Section Batch.
Context `{Json} `{Daemon}.

(** [errorResponse]: what the [catch] makes of a failed exchange. *)
Definition errorResponse (cmd : Request) (message : string) : Response :=
  {| resp_id := js_String (prop cmd "id"); resp_success := false;
     resp_data := None; resp_error := Some message |}.

(** The [for] loop; [break] returns the state.  A line of the console
    records what is printed: [formatResponse] is not taken apart, and is
    taken not to throw.  The [catch] is entered here only when
    [sendCommand] rejects.  In the source it is also entered when reading
    [response.success] throws, after the push, on an answer that is not an
    object; such answers are outside [Response], so the properties of the
    loop are stated for exchanges that answer with a [Response] or reject. *)
Fixpoint batch_loop (json : bool) (commands : list Request) (b : batch) : batch :=
  match commands with
  | [] => b
  | cmd :: commands' =>
      let evs := socket_events (sent b) cmd in
      let sent' := (sent b ++ [cmd])%list in
      let wire' := (wire b ++ written (sendCommand_exchange cmd evs))%list in
      match sendCommand cmd evs with
      | Resolved response =>
          let results' := (results b ++ [response])%list in
          let console' :=
            if json then console b
            else (console b ++ [LogAction (prop cmd "action");
                                LogResponse response; LogBlank])%list in
          if negb (resp_success response) then
            {| results := results'; hasError := true; console := console';
               sent := sent'; wire := wire' |}
          else
            batch_loop json commands'
              {| results := results'; hasError := hasError b;
                 console := console'; sent := sent'; wire := wire' |}
      | Rejected message =>
          {| results := (results b ++ [errorResponse cmd message])%list;
             hasError := true;
             console :=
               if json then console b
               else (console b ++ [LogAction (prop cmd "action");
                                   LogError message])%list;
             sent := sent'; wire := wire' |}
      end
  end.

Definition runBatch (commands : list Request) (json : bool) : batch_run :=
  let b := batch_loop json commands
             {| results := []; hasError := false; console := [];
                sent := []; wire := [] |} in
  {| run_success := negb (hasError b);
     run_results := results b;
     run_completed := List.length (results b);
     run_total := List.length commands;
     run_console :=
       if json then
         (console b ++ [LogJson (negb (hasError b)) (results b)
                          (List.length (results b)) (List.length commands)])%list
       else (console b ++ [LogRule;
                           LogCompleted (List.length (results b)) (List.length commands)])%list;
     run_exit := if hasError b then 1%Z else 0%Z;
     run_sent := sent b;
     run_wire := wire b |}.
End Batch.

(** ** Daemon supervisor ([isDaemonRunning], [ensureDaemon]) *)

(** What a path names. *)
Inductive node : Type :=
  | File (content : string)
  | Directory
  | Socket.

(** The part of the operating system the supervisor looks at: the file
    system, and whether [kill(pid, 0)] succeeds. *)
Record world : Type := {
  fs : string -> option node;
  kill0 : Z -> bool;
}.

(** [os.tmpdir()], [process.env.AGENT_BROWSER_SESSION], [path.join],
    [path.dirname(process.argv[1])] and [process.cwd()]. *)
Class Host := {
  tmpdir : string;
  env_SESSION : option string;
  path_join : string -> string -> string;
  scriptDir : string;
  cwd : string;
}.

(** What [ensureDaemon] comes to. *)
Inductive ensured : Type :=
  | Ready                      (* the early return: nothing is looked up or spawned *)
  | Started (polls : nat)      (* spawned, and the socket was there at that poll *)
  | DaemonNotFound (looked : string)
  | FailedToStart.

Section Supervisor.
Context `{Host}.

Definition SESSION : string :=
  match env_SESSION with
  | Some s => if truthy_string s then s else "default"
  | None => "default"
  end.

Definition SOCKET_PATH : string :=
  path_join tmpdir ("agent-browser-" +:+ SESSION +:+ ".sock").

Definition PID_FILE : string :=
  path_join tmpdir ("agent-browser-" +:+ SESSION +:+ ".pid").

Definition existsSync (w : world) (p : string) : bool :=
  match fs w p with
  | Some _ => true
  | None => false
  end.

(** [fs.readFileSync(p, 'utf8')]; [None]: it throws. *)
Definition readFileSync (w : world) (p : string) : option string :=
  match fs w p with
  | Some (File content) => Some content
  | _ => None
  end.

(** [process.kill(pid, 0)] returns ([true]) or throws ([false]).  Node
    throws on a [pid] that is not a 32-bit integer ([pid != (pid | 0)],
    so on [NaN]) before it asks the system. *)
Definition process_kill0 (w : world) (pid : jsnum) : bool :=
  match pid with
  | NaN => false
  | Inf _ => false
  | Fin z =>
      if ((-2147483648 <=? z) && (z <=? 2147483647))%Z then kill0 w z else false
  end.

Definition isDaemonRunning (w : world) : bool :=
  if negb (existsSync w PID_FILE) then false
  else
    match readFileSync w PID_FILE with
    | Some content => process_kill0 w (parseInt10 (js_trim content))
    | None => false
    end.

(** The polling loop: [k] turns are left, the next one is turn [i]; the
    world at turn [i] is [timeline i] (one sleep of 100 ms apart). *)
Fixpoint poll (timeline : nat -> world) (k i : nat) : option nat :=
  match k with
  | 0 => None
  | S k' =>
      if existsSync (timeline i) SOCKET_PATH then Some i
      else poll timeline k' (S i)
  end.

(** [ensureDaemon()]: what it comes to, and the daemons it spawned
    (script and session). *)
Definition ensureDaemon (timeline : nat -> world) : ensured * list (string * string) :=
  let w := timeline 0 in
  if isDaemonRunning w && existsSync w SOCKET_PATH then (Ready, [])
  else
    let daemonPath := path_join scriptDir "daemon.js" in
    let daemonPath :=
      if negb (existsSync w daemonPath)
      then path_join scriptDir "../dist/daemon.js" else daemonPath in
    let daemonPath :=
      if negb (existsSync w daemonPath)
      then path_join cwd "dist/daemon.js" else daemonPath in
    if negb (existsSync w daemonPath) then (DaemonNotFound daemonPath, [])
    else
      match poll timeline 50 0 with
      | Some i => (Started i, [(daemonPath, SESSION)])
      | None => (FailedToStart, [(daemonPath, SESSION)])
      end.
End Supervisor.

(** ** The entry point ([printResponse], [main]) *)

(** What [main] prints: on the console, or on the error stream. *)
Inductive main_line : Type :=
  | OutHelp                                  (* console.log(HELP) *)
  | OutBatch (line : console_line)           (* a line of runBatch *)
  | OutResponse (response : Response)        (* console.log(formatResponse(response)) *)
  | OutResponseJson (response : Response)    (* console.log(JSON.stringify(response)) *)
  | OutErrorJson (message : string)          (* console.log of {success: false, error} *)
  | OutExample                               (* the example of a batch *)
  | ErrBatchNeedsCommand
  | ErrNoValidCommands
  | ErrUnknownCommand (verb : option string)
  | ErrError (message : string).

(** What a run of the client comes to: its exit code, what it printed,
    the daemons it spawned and the requests it handed to [sendCommand]. *)
Record main_run : Type := {
  main_exit : Z;
  main_out : list main_line;
  main_spawned : list (string * string);
  main_sent : list Request;
}.

(** [printResponse(response, json)]. *)
Definition printResponse (response : Response) (json : bool) : main_line :=
  if json then OutResponseJson response else OutResponse response.

(** [args.includes(x)]. *)
Definition includes (args : list string) (x : string) : bool :=
  existsb (String.eqb x) args.

(** [args.filter(a => !a.startsWith('--'))]. *)
Definition cleanArgs (args : list string) : list string :=
  List.filter (fun a => negb (startsWith a "--")) args.

Section Main.
Context `{Host} `{Random} `{Json} `{Daemon}.

(** The [catch] of [main]: the message goes to the console as JSON, or
    to the error stream. *)
Definition report_error (json : bool) (message : string)
    (spawned : list (string * string)) : main_run :=
  {| main_exit := 1;
     main_out := [if json then OutErrorJson message else ErrError message];
     main_spawned := spawned; main_sent := [] |}.

(** [await ensureDaemon()] followed by [k]; the two errors of
    [ensureDaemon] go to the [catch]. *)
Definition with_daemon (json : bool) (timeline : nat -> world)
    (k : list (string * string) -> main_run) : main_run :=
  match ensureDaemon timeline with
  | (Ready, spawned) | (Started _, spawned) => k spawned
  | (DaemonNotFound looked, spawned) =>
      report_error json ("Daemon not found. Looked in: " +:+ looked) spawned
  | (FailedToStart, spawned) => report_error json "Failed to start daemon" spawned
  end.

(** [main()], for the arguments after the script, started after [n] calls
    of [Math.random]. *)
Definition main (args : list string) (n : nat) (timeline : nat -> world) : main_run :=
  let json := includes args "--json" in
  if (List.length (cleanArgs args) =? 0)%nat || includes args "--help" || includes args "-h"
  then {| main_exit := 0; main_out := [OutHelp]; main_spawned := []; main_sent := [] |}
  else if slot_is (cleanArgs args !! 0) "batch" then
    let batchArgs := tail (cleanArgs args) in
    if (List.length batchArgs =? 0)%nat then
      {| main_exit := 1; main_out := [ErrBatchNeedsCommand; OutExample];
         main_spawned := []; main_sent := [] |}
    else
      let commands := (parseBatchCommands batchArgs n).1 in
      if (List.length commands =? 0)%nat then
        {| main_exit := 1; main_out := [ErrNoValidCommands];
           main_spawned := []; main_sent := [] |}
      else
        with_daemon json timeline (fun spawned =>
          let r := runBatch commands json in
          {| main_exit := run_exit r; main_out := map OutBatch (run_console r);
             main_spawned := spawned; main_sent := run_sent r |})
  else
    match (parseCommand (cleanArgs args) n).1 with
    | None =>
        {| main_exit := 1; main_out := [ErrUnknownCommand (cleanArgs args !! 0)];
           main_spawned := []; main_sent := [] |}
    | Some cmd =>
        with_daemon json timeline (fun spawned =>
          match sendCommand cmd (socket_events [] cmd) with
          | Resolved response =>
              {| main_exit := if resp_success response then 0 else 1;
                 main_out := [printResponse response json];
                 main_spawned := spawned; main_sent := [cmd] |}
          | Rejected message =>
              {| main_exit := 1;
                 main_out := [if json then OutErrorJson message else ErrError message];
                 main_spawned := spawned; main_sent := [cmd] |}
          end)
    end.
End Main.

(** * Vocabulary of the properties

    The words the properties below are stated in, and a sample runtime
    to evaluate the model on. *)

Definition supported_verbs : list string :=
  ["open"; "goto"; "navigate"; "click"; "fill"; "type"; "hover"; "snapshot";
   "screenshot"; "close"; "quit"; "get"; "press"; "wait"; "back"; "forward";
   "reload"; "eval"].

(** The token lists the encoder has no request for. *)
Definition unsupported (parts : list string) : Prop :=
  match parts with
  | [] => True
  | command :: rest =>
      command ∉ supported_verbs
      \/ (command = "get" /\ rest !! 0 ∉ [Some "text"; Some "url"; Some "title"])
  end.

(** What encoding each command string of a batch in turn gives, the
    strings that encode to [null] included. *)
Fixpoint encodings `{Random} (args : list string) (n : nat) : list (option Request) :=
  match args with
  | [] => []
  | arg :: args' =>
      (parseCommand (cleanParts arg) n).1
        :: encodings args' (parseCommand (cleanParts arg) n).2
  end.

(** A URL scheme as RFC 3986 writes it: a letter, then letters, digits,
    plus, minus or dot, and the separator [://] after it. *)
Definition is_alpha (c : ascii) : bool :=
  let n := nat_of_ascii c in
  ((65 <=? n)%nat && (n <=? 90)%nat) || ((97 <=? n)%nat && (n <=? 122)%nat).

Definition is_scheme_char (c : ascii) : bool :=
  is_alpha c || is_digit c || Ascii.eqb c "+" || Ascii.eqb c "-" || Ascii.eqb c ".".

Fixpoint scheme_rest (s : string) : bool :=
  match s with
  | EmptyString => false
  | String c s' => startsWith s "://" || (is_scheme_char c && scheme_rest s')
  end.

Definition has_scheme (s : string) : bool :=
  match s with
  | EmptyString => false
  | String c s' => is_alpha c && scheme_rest s'
  end.

(** The url field as the specification words it: a bare host (an argument
    without a scheme) is prefixed, any other argument is kept. *)
Definition spec_navigate_url (arg : string) : string :=
  if has_scheme arg then arg else "https://" +:+ arg.

(** The [url] property of what [parseCommand] returns. *)
Definition url_of (r : option Request * nat) : option jsval :=
  match r.1 with
  | Some cmd => cmd !! "url"
  | None => None
  end.

(** The documented mapping from verbs to actions. *)
Definition verb_actions : list (string * string) :=
  [("open", "navigate"); ("goto", "navigate"); ("navigate", "navigate");
   ("click", "click"); ("fill", "fill"); ("type", "type"); ("hover", "hover");
   ("snapshot", "snapshot"); ("screenshot", "screenshot");
   ("close", "close"); ("quit", "close"); ("press", "press"); ("wait", "wait");
   ("back", "back"); ("forward", "forward"); ("reload", "reload");
   ("eval", "evaluate")].

Definition get_actions : list (string * string) :=
  [("text", "gettext"); ("url", "url"); ("title", "title")].

Inductive documented : list string -> string -> Prop :=
  | documented_verb (command action : string) (rest : list string) :
      (command, action) ∈ verb_actions -> documented (command :: rest) action
  | documented_get (what action : string) (rest : list string) :
      (what, action) ∈ get_actions -> documented ("get" :: what :: rest) action.

(** The [id] property of what [parseCommand] returns. *)
Definition id_of (r : option Request * nat) : option jsval :=
  match r.1 with
  | Some cmd => cmd !! "id"
  | None => None
  end.

(** What a verb called without any argument stores in the fields its
    arguments would fill. *)
Definition fields_without_arguments : list (string * (string * jsval)) :=
  [("open", ("url", VStr "https://undefined"));
   ("goto", ("url", VStr "https://undefined"));
   ("navigate", ("url", VStr "https://undefined"));
   ("click", ("selector", VUndef));
   ("fill", ("selector", VUndef)); ("fill", ("value", VStr ""));
   ("type", ("selector", VUndef)); ("type", ("text", VStr ""));
   ("hover", ("selector", VUndef));
   ("screenshot", ("path", VUndef));
   ("press", ("key", VUndef));
   ("wait", ("selector", VUndef));
   ("eval", ("script", VStr ""))].

(** A property of what [parseCommand] returns. *)
Definition field_of (k : string) (r : option Request * nat) : option jsval :=
  match r.1 with
  | Some cmd => cmd !! k
  | None => None
  end.

(** What holds of an exchange after any events: the promise was settled
    once if [resolved] is set and not at all otherwise; [cleanup] ran at
    most once, and the socket has its listeners until then; an exchange
    that is not resolved still listens. *)
Definition exchange_inv (x : exchange) : Prop :=
  List.length (settled x) = (if resolved x then 1 else 0)
  /\ removed x = destroyed x
  /\ removed x = (if listening x then 0 else 1)
  /\ (resolved x = false -> listening x = true).

Section BatchVocabulary.
Context `{Json} `{Daemon}.



End BatchVocabulary.

Section SupervisorVocabulary.
Context `{Host}.

(** The marker file records a number, and the existence probe
    [kill(pid, 0)] of that number succeeds. *)
Definition recorded_pid_answers (w : world) : Prop :=
  exists (content : string) (pid : Z),
    fs w PID_FILE = Some (File content)
    /\ parseInt10 (js_trim content) = Fin pid
    /\ (-2147483648 <= pid <= 2147483647)%Z
    /\ kill0 w pid = true.
End SupervisorVocabulary.

(** ** Sample instances

    A runtime to evaluate the model on: used by the examples and by the
    lemmas that run a theorem on a concrete input. *)

Definition q : string := String dquote "".

(** Draws of a sample run; the third draw is 0. *)
Definition sample_random : Random :=
  {| random36 := fun n =>
       match n with
       | 0 => "0.4fzyo82mvyr"
       | 1 => "0.9x1"
       | 2 => "0"
       | _ => "0.k3l0d2c8q1a"
       end |}.

Definition ok_line (id : string) : string :=
  "{" +:+ q +:+ "id" +:+ q +:+ ":" +:+ q +:+ id +:+ q +:+ ","
      +:+ q +:+ "success" +:+ q +:+ ":true}".

Definition failed_line (id : string) : string :=
  "{" +:+ q +:+ "id" +:+ q +:+ ":" +:+ q +:+ id +:+ q +:+ ","
      +:+ q +:+ "success" +:+ q +:+ ":false,"
      +:+ q +:+ "error" +:+ q +:+ ":" +:+ q +:+ "no such element" +:+ q +:+ "}".

Definition ok_response (id : string) : Response :=
  {| resp_id := id; resp_success := true; resp_data := None; resp_error := None |}.

Definition failed_response (id : string) : Response :=
  {| resp_id := id; resp_success := false; resp_data := None;
     resp_error := Some "no such element" |}.

(** A [JSON.parse] that knows the two answers of the sample daemon for
    the identifiers "a", "b" and "c" and throws on any other text, and a
    [JSON.stringify] that writes the [id] and [action] of a request. *)
Definition sample_json : Json :=
  {| JSON_stringify := fun cmd =>
       "{" +:+ q +:+ "id" +:+ q +:+ ":" +:+ q +:+ js_String (prop cmd "id") +:+ q +:+ ","
           +:+ q +:+ "action" +:+ q +:+ ":" +:+ q +:+ js_String (prop cmd "action") +:+ q +:+ "}";
     JSON_parse := fun s =>
       if existsb (fun id => String.eqb s (ok_line id)) ["a"; "b"; "c"] then
         Some (ok_response (js_slice 7 8 s))
       else if existsb (fun id => String.eqb s (failed_line id)) ["a"; "b"; "c"] then
         Some (failed_response (js_slice 7 8 s))
       else None |}.

Definition request (id action : string) : Request := base id action.

(** A daemon that answers every request but "click" with success, fails
    "click", and closes without a word on "reload". *)
Definition sample_daemon : Daemon :=
  {| socket_events := fun _ cmd =>
       let id := js_String (prop cmd "id") in
       match prop cmd "action" with
       | VStr "click" => [Connect; Data (failed_line id +:+ String newline ""); Close]
       | VStr "reload" => [Connect; Close]
       | _ => [Connect; Data (ok_line id +:+ String newline ""); Close]
       end |}.

Definition sample_host : Host :=
  {| tmpdir := "/tmp"; env_SESSION := None;
     path_join := fun a b => a +:+ "/" +:+ b;
     scriptDir := "/opt/agent-browser/dist"; cwd := "/home/user" |}.

(** A machine where the marker names process 4242 and the socket and the
    daemon script exist; the process is gone in [stale_world]. *)
Definition sample_fs (p : string) : option node :=
  if String.eqb p "/tmp/agent-browser-default.pid" then Some (File " 4242 ")
  else if String.eqb p "/tmp/agent-browser-default.sock" then Some Socket
  else if String.eqb p "/opt/agent-browser/dist/daemon.js" then Some (File "")
  else None.

Definition live_world : world := {| fs := sample_fs; kill0 := Z.eqb 4242 |}.
Definition stale_world : world := {| fs := sample_fs; kill0 := fun _ => false |}.

(** A machine: what the supervisor reads of it, and the processes that
    exist on it.  The probe and the processes part ways in two cases:
    [kill(0, 0)] signals the process group of the caller and succeeds
    though no process has the identifier 0, and [kill(pid, 0)] fails with
    EPERM on a process of another user though the process exists. *)
Record machine : Type := {
  seen : world;
  process_exists : Z -> bool;
}.

(** The marker holds 0 and the socket of a dead daemon is still there. *)
Definition zero_marker_machine : machine :=
  {| seen :=
       {| fs := fun p =>
            if String.eqb p "/tmp/agent-browser-default.pid" then Some (File "0")
            else if String.eqb p "/tmp/agent-browser-default.sock" then Some Socket
            else None;
          kill0 := Z.eqb 0 |};
     process_exists := fun _ => false |}.

(** The marker names process 4242, which runs as another user. *)
Definition foreign_daemon_machine : machine :=
  {| seen := {| fs := sample_fs; kill0 := fun _ => false |};
     process_exists := Z.eqb 4242 |}.

(** The process identifier the marker records. *)
Definition recorded_pid `{Host} (w : world) : option Z :=
  match readFileSync w PID_FILE with
  | Some content =>
      match parseInt10 (js_trim content) with
      | Fin pid => Some pid
      | _ => None
      end
  | None => None
  end.

(** Two exchanges that differ at most in the buffer of a socket that has
    lost its listeners. *)
Definition same_but_dead_buffer (x y : exchange) : Prop :=
  resolved x = resolved y /\ listening x = listening y
  /\ removed x = removed y /\ destroyed x = destroyed y
  /\ written x = written y /\ settled x = settled y
  /\ (listening x = true -> buffer x = buffer y).

Definition is_connect (ev : event) : bool :=
  match ev with
  | Connect => true
  | _ => false
  end.

(** The actions a request can carry, and the properties it can have. *)
Definition actions : list string :=
  ["navigate"; "click"; "fill"; "type"; "hover"; "snapshot"; "screenshot";
   "close"; "gettext"; "url"; "title"; "press"; "wait"; "back"; "forward";
   "reload"; "evaluate"].

Definition request_keys : gset string :=
  list_to_set ["id"; "action"; "url"; "selector"; "value"; "text"; "interactive";
               "compact"; "maxDepth"; "path"; "key"; "timeout"; "script"].

(** A command string of white space only. *)
Fixpoint blank (s : string) : bool :=
  match s with
  | EmptyString => true
  | String c s' => is_ws c && blank s'
  end.

(** The [id] properties of the requests of a batch. *)
Definition ids_of (commands : list Request) : list (option jsval) :=
  map (fun cmd : Request => cmd !! "id") commands.

(** What a command line is made of: a word, or a text in double
    quotes. *)
Inductive item : Type :=
  | Word (w : string)
  | Quoted (s : string).

Fixpoint all_plain (s : string) : bool :=
  match s with
  | EmptyString => true
  | String c s' => is_plain c && all_plain s'
  end.

(** A word is not empty and has neither white space nor quotes; a quoted
    text has no quote inside. *)
Definition item_ok (it : item) : bool :=
  match it with
  | Word w => truthy_string w && all_plain w
  | Quoted s => negb (has_dquote s)
  end.

Definition item_text (it : item) : string :=
  match it with
  | Word w => w
  | Quoted s => String dquote (s +:+ String dquote "")
  end.

Definition item_token (it : item) : string :=
  match it with
  | Word w => w
  | Quoted s => s
  end.

(** The items written one after the other, a space between them. *)
Fixpoint command_line (items : list item) : string :=
  match items with
  | [] => ""
  | [it] => item_text it
  | it :: items' => item_text it +:+ String " " (command_line items')
  end.

Section SupervisorCandidates.
Context `{Host}.

(** The places [ensureDaemon] looks for the daemon script, in order. *)
Definition daemon_candidates : list string :=
  [path_join scriptDir "daemon.js";
   path_join scriptDir "../dist/daemon.js";
   path_join cwd "dist/daemon.js"].

End SupervisorCandidates.

(** An option of the command line that [main] does not know: it starts
    with two dashes and is neither [--json] nor [--help]. *)
Definition unknown_option (a : string) : bool :=
  startsWith a "--" && negb (String.eqb a "--json") && negb (String.eqb a "--help").

(** More machines: one where nothing exists; one where the daemon script
    is there but no daemon ever comes up; and one where the socket of the
    spawned daemon appears at the fourth poll. *)
Definition bare_world : world := {| fs := fun _ => None; kill0 := fun _ => false |}.

Definition down_world : world :=
  {| fs := fun p =>
       if String.eqb p "/opt/agent-browser/dist/daemon.js" then Some (File "") else None;
     kill0 := fun _ => false |}.

Definition booting_timeline (t : nat) : world :=
  if (t <? 3)%nat then down_world else live_world.

(** The options of [snapshot]: the two switches, and the options that
    take the next argument as their value. *)
Definition is_interactive (a : string) : bool :=
  String.eqb a "-i" || String.eqb a "--interactive".

Definition is_compact (a : string) : bool :=
  String.eqb a "-c" || String.eqb a "--compact".

Definition takes_value (a : string) : bool :=
  (String.eqb a "--depth" || String.eqb a "-d")
  || (String.eqb a "--selector" || String.eqb a "-s").

(** * Properties *)

(** ** Properties of the encoder *)

Ltac lookup_fields :=
  unfold base;
  repeat first
    [ rewrite lookup_insert_eq
    | rewrite lookup_insert_ne by discriminate
    | rewrite lookup_empty ];
  try reflexivity.

Lemma eqb_of_neq (a b : string) : a <> b -> String.eqb a b = false.
Proof. intros Hne. by apply String.eqb_neq. Qed.

Lemma encode_verb_other (id command : string) (rest : list string) :
  command ∉ supported_verbs -> encode_verb id command rest = None.
Proof.
  intros Hnot. unfold encode_verb.
  repeat (rewrite (eqb_of_neq command _);
          [ | intros ->; apply Hnot; unfold supported_verbs; repeat constructor ]).
  reflexivity.
Qed.

Lemma encode_verb_get_other (id : string) (rest : list string) :
  rest !! 0 ∉ [Some "text"; Some "url"; Some "title"] ->
  encode_verb id "get" rest = None.
Proof.
  intros Hnot. destruct rest as [|a rest]; [ reflexivity | ].
  assert (Hs : forall s, s ∈ ["text"; "url"; "title"] -> String.eqb a s = false).
  { intros s Hs. apply eqb_of_neq. intros ->. apply Hnot.
    cbn. exact (list_elem_of_fmap_2 Some _ _ Hs). }
  unfold encode_verb. cbn.
  rewrite !Hs by repeat constructor. reflexivity.
Qed.

Section EncoderFacts.
Context `{Random}.

Lemma parseCommand_unsupported (parts : list string) (n : nat) :
  unsupported parts -> (parseCommand parts n).1 = None.
Proof.
  destruct parts as [|command rest]; [ reflexivity | ].
  intros [Hnot | [-> Hnot]]; cbn [parseCommand fst].
  - by apply encode_verb_other.
  - by apply encode_verb_get_other.
Qed.

(** The loop started with [acc] commands gives [acc] followed by the
    loop started with none. *)
Lemma batch_fold_acc (args : list string) (acc : list Request) (n : nat) :
  fold_left batch_step args (acc, n)
  = ((acc ++ (fold_left batch_step args ([], n)).1)%list,
     (fold_left batch_step args ([], n)).2).
Proof.
  revert acc n. induction args as [|arg args IH]; intros acc n; cbn [fold_left].
  - by rewrite app_nil_r.
  - unfold batch_step at 2 4 6.
    destruct (parseCommand (cleanParts arg) n) as [[cmd|] n'].
    + rewrite (IH (acc ++ [cmd])%list n'), (IH ([] ++ [cmd])%list n').
      cbn [fst snd]. by rewrite <- !app_assoc.
    + rewrite (IH acc n'). reflexivity.
Qed.

Lemma parseBatchCommands_cons (arg : string) (args : list string) (n : nat) :
  (parseBatchCommands (arg :: args) n).1
  = match (parseCommand (cleanParts arg) n).1 with
    | Some cmd => cmd :: (parseBatchCommands args (parseCommand (cleanParts arg) n).2).1
    | None => (parseBatchCommands args (parseCommand (cleanParts arg) n).2).1
    end.
Proof.
  unfold parseBatchCommands. cbn [fold_left]. unfold batch_step at 2.
  destruct (parseCommand (cleanParts arg) n) as [[cmd|] n']; cbn [fst snd].
  - rewrite batch_fold_acc. reflexivity.
  - reflexivity.
Qed.

Lemma parseBatchCommands_encodings (args : list string) (n : nat) :
  (parseBatchCommands args n).1 = omap (fun r => r) (encodings args n).
Proof.
  revert n. induction args as [|arg args IH]; intros n.
  - reflexivity.
  - rewrite parseBatchCommands_cons. cbn [encodings omap].
    destruct (parseCommand (cleanParts arg) n).1; cbn; by rewrite IH.
Qed.

Lemma encodings_length (args : list string) (n : nat) :
  List.length (encodings args n) = List.length args.
Proof.
  revert n. induction args as [|arg args IH]; intros n; cbn; [ | rewrite IH ]; reflexivity.
Qed.

(** C7. [parseCommand] returns [null] for the empty token list, for a
    first token that is no supported verb, and for [get] followed by
    anything but text, url or title.  [parseBatchCommands] tokenizes and
    encodes every command string of its argument list, and returns the
    requests of those that do not encode to [null], in their order. *)
Theorem parseCommand_null_and_batch_drops
    (parts : list string) (args : list string) (n : nat) :
  unsupported parts ->
  (parseCommand parts n).1 = None
  /\ List.length (encodings args n) = List.length args
  /\ (parseBatchCommands args n).1 = omap (fun r => r) (encodings args n).
Proof.
  intros Hparts. split; [ by apply parseCommand_unsupported | ].
  split; [ apply encodings_length | apply parseBatchCommands_encodings ].
Qed.
End EncoderFacts.

Lemma parseCommand_null_and_batch_drops_witness :
  unsupported ["get"; "html"; "#main"]
  /\ (@parseCommand sample_random ["get"; "html"; "#main"] 0).1 = None
  /\ List.length (@encodings sample_random ["open example.com"; "frobnicate"; "get title"] 0) = 3
  /\ (@parseBatchCommands sample_random ["open example.com"; "frobnicate"; "get title"] 0).1
     = omap (fun r => r)
         (@encodings sample_random ["open example.com"; "frobnicate"; "get title"] 0).
Proof.
  assert (Hu : unsupported ["get"; "html"; "#main"]).
  { right. split; [ reflexivity | ]. cbn. intros Hin.
    repeat (apply elem_of_cons in Hin as [Hin | Hin]; [ discriminate | ]).
    by apply elem_of_nil in Hin. }
  split; [ exact Hu | ].
  exact (@parseCommand_null_and_batch_drops sample_random
           ["get"; "html"; "#main"]
           ["open example.com"; "frobnicate"; "get title"] 0 Hu).
Defined.

Example batch_drops_unknown_verb :
  map (fun cmd : Request => cmd !! "action")
    (@parseBatchCommands sample_random
       ["open example.com"; "frobnicate now"; ""; "get title"] 0).1
  = [Some (VStr "navigate"); Some (VStr "title")].
Proof. vm_compute. reflexivity. Qed.

(** *** The fields of the requests *)

Lemma read_digits_all (s : string) (acc : Z) (seen : bool) :
  all_digits s = true ->
  (seen = true \/ s <> "") ->
  read_digits s acc seen
  = Some (fold_left (fun a c => (10 * a + digit_value c)%Z) (list_ascii_of_string s) acc).
Proof.
  revert acc seen. induction s as [|c s IH]; intros acc seen Hall Hseen.
  - destruct Hseen as [-> | Hne]; [ reflexivity | congruence ].
  - cbn in Hall. apply andb_prop in Hall as [Hc Hs].
    cbn [read_digits list_ascii_of_string fold_left]. rewrite Hc.
    apply IH; [ exact Hs | by left ].
Qed.

Lemma digit_head (c : ascii) (s : string) :
  is_digit c = true ->
  drop_ws (String c s) = String c s /\ c <> "-"%char /\ c <> "+"%char.
Proof.
  intros Hc. cbn [drop_ws].
  destruct c as [[] [] [] [] [] [] [] []]; try discriminate Hc; repeat split; discriminate.
Qed.

(** On a string of digits [parseInt(s, 10)] is the integer it denotes. *)
Lemma parseInt10_digits (s : string) :
  re_digits s = true -> parseInt10 s = to_double (decimal_value s).
Proof.
  destruct s as [|c s]; [ discriminate | ].
  cbn [re_digits]. intros Hall.
  assert (Hc : is_digit c = true) by (cbn in Hall; by apply andb_prop in Hall as [? _]).
  destruct (digit_head c s Hc) as (Hdrop & Hminus & Hplus).
  unfold parseInt10. rewrite Hdrop.
  assert (Hread : read_digits (String c s) 0 false = Some (decimal_value (String c s))).
  { apply read_digits_all; [ exact Hall | by right ]. }
  destruct c as [[] [] [] [] [] [] [] []];
    solve [ exact (f_equal (fun o => match o with Some z => to_double z | None => NaN end) Hread)
          | by exfalso; apply Hminus | by exfalso; apply Hplus ].
Qed.

Lemma decimal_value_nonneg (s : string) :
  all_digits s = true -> (0 <= decimal_value s)%Z.
Proof.
  unfold decimal_value. intros Hall.
  assert (Hgen : forall acc, (0 <= acc)%Z ->
            (0 <= fold_left (fun a c => (10 * a + digit_value c)%Z)
                    (list_ascii_of_string s) acc)%Z); [ | by apply Hgen ].
  induction s as [|c s IH]; intros acc Hacc; [ exact Hacc | ].
  cbn in Hall. apply andb_prop in Hall as [Hc Hs].
  cbn [list_ascii_of_string fold_left]. apply IH; [ exact Hs | ].
  assert (0 <= digit_value c)%Z.
  { unfold is_digit in Hc. apply andb_prop in Hc as [Hlo _].
    apply Nat.leb_le in Hlo. unfold digit_value. lia. }
  lia.
Qed.

(** An integer below 2^53 is a double. *)
Lemma to_double_exact (z : Z) : (0 <= z < 2 ^ 53)%Z -> to_double z = Fin z.
Proof.
  intros [Hlo Hhi]. unfold to_double, round_nat.
  rewrite (Z.abs_eq z Hlo).
  replace (z <? 2 ^ 53)%Z with true by (symmetry; by apply Z.ltb_lt).
  replace (z <? 0)%Z with false by (symmetry; apply Z.ltb_ge; lia).
  reflexivity.
Qed.

(** [snapshot] options never touch a property they do not name. *)
Lemma snapshot_opts_other (k : string) (rest : list string) (opts : Request) :
  k ∉ ["interactive"; "compact"; "maxDepth"; "selector"] ->
  snapshot_opts rest opts !! k = opts !! k.
Proof.
  intros Hk.
  assert (Hne : forall k' v (m : Request),
             k' ∈ ["interactive"; "compact"; "maxDepth"; "selector"] ->
             <[k' := v]> m !! k = m !! k).
  { intros k' v m Hk'. apply lookup_insert_ne. intros ->. by apply Hk. }
  remember (List.length rest) as len eqn:Hlen.
  revert rest opts Hlen. induction len as [len IH] using lt_wf_ind.
  intros rest opts ->. destruct rest as [|arg rest]; [ reflexivity | ].
  cbn [snapshot_opts].
  repeat match goal with
         | |- context [if ?b then _ else _] => destruct b
         | |- context [match ?l with [] => _ | _ :: _ => _ end] => destruct l
         end;
    try (erewrite IH; [ | | reflexivity ]; [ | cbn; lia ]);
    rewrite ?Hne by repeat constructor; reflexivity.
Qed.

(** *** Navigation ([open], [goto], [navigate]) *)

Section NavigateFacts.
Context `{Random}.

(** C5, as the code has it.  For [open], [goto] and [navigate] with a URL
    argument the request has action navigate, and its url is the argument
    itself when the argument starts with the four characters http, and
    the argument prefixed with https:// otherwise. *)
Theorem navigate_url_by_http_prefix
    (command arg : string) (more : list string) (n : nat) :
  command ∈ ["open"; "goto"; "navigate"] ->
  exists cmd : Request,
    parseCommand (command :: arg :: more) n = (Some cmd, S n)
    /\ cmd !! "action" = Some (VStr "navigate")
    /\ cmd !! "url"
       = Some (VStr (if startsWith arg "http" then arg else "https://" +:+ arg)).
Proof.
  intros Hcommand.
  repeat (apply elem_of_cons in Hcommand as [-> | Hcommand]);
    [ | | | by apply elem_of_nil in Hcommand ];
    (eexists; split; [ reflexivity | ]; split; lookup_fields).
Qed.
End NavigateFacts.

Lemma navigate_url_by_http_prefix_witness :
  "goto" ∈ ["open"; "goto"; "navigate"]
  /\ exists cmd : Request,
       @parseCommand sample_random ["goto"; "example.com"] 0 = (Some cmd, 1)
       /\ cmd !! "action" = Some (VStr "navigate")
       /\ cmd !! "url"
          = Some (VStr (if startsWith "example.com" "http" then "example.com"
                        else "https://" +:+ "example.com")).
Proof.
  assert (Hin : "goto" ∈ ["open"; "goto"; "navigate"]) by repeat constructor.
  split; [ exact Hin | ].
  exact (@navigate_url_by_http_prefix sample_random "goto" "example.com" [] 0 Hin).
Defined.

(** C5, as the specification words it, fails both ways: a bare host that
    starts with http is not prefixed, and an argument with another scheme
    is. *)
Lemma navigate_bare_host_counterexample :
  has_scheme "httpbin.org" = false
  /\ spec_navigate_url "httpbin.org" = "https://httpbin.org"
  /\ url_of (@parseCommand sample_random ["open"; "httpbin.org"] 0)
     = Some (VStr "httpbin.org")
  /\ has_scheme "ftp://files.example.com" = true
  /\ spec_navigate_url "ftp://files.example.com" = "ftp://files.example.com"
  /\ url_of (@parseCommand sample_random ["open"; "ftp://files.example.com"] 0)
     = Some (VStr "https://ftp://files.example.com").
Proof. repeat split; vm_compute; reflexivity. Qed.

(** *** [wait] *)

Section WaitFacts.
Context `{Random}.

(** C6.  [wait s] encodes a request with action wait.  When [s] matches
    [^\d+$] it has a timeout, the number [parseInt(s, 10)], and no
    selector; that number is the double nearest to the integer [s]
    denotes, and the integer itself below 2^53.  When [s] does not match
    it has the selector [s] and no timeout.  Neither the tokens after [s]
    nor the identifier change this. *)
Theorem wait_timeout_iff_digits (s : string) (more : list string) (n : nat) :
  exists cmd : Request,
    parseCommand ("wait" :: s :: more) n = (Some cmd, S n)
    /\ cmd !! "action" = Some (VStr "wait")
    /\ (re_digits s = true ->
        cmd !! "timeout" = Some (VNum (parseInt10 s))
        /\ parseInt10 s = to_double (decimal_value s)
        /\ ((decimal_value s < 2 ^ 53)%Z -> parseInt10 s = Fin (decimal_value s))
        /\ cmd !! "selector" = None)
    /\ (re_digits s = false ->
        cmd !! "selector" = Some (VStr s) /\ cmd !! "timeout" = None)
    /\ (is_Some (cmd !! "timeout") <-> re_digits s = true).
Proof.
  unfold parseCommand, encode_verb. cbn -[re_digits parseInt10].
  unfold test_digits, parseInt10_of. cbn [template_of].
  destruct (re_digits s) eqn:Hre.
  - eexists. split; [ reflexivity | ].
    split; [ lookup_fields | ].
    split.
    { intros _. split; [ lookup_fields | ].
      split; [ by apply parseInt10_digits | ].
      split; [ | lookup_fields ].
      intros Hsmall. rewrite (parseInt10_digits s Hre). apply to_double_exact.
      split; [ | exact Hsmall ]. apply decimal_value_nonneg.
      destruct s; [ discriminate Hre | exact Hre ]. }
    split; [ discriminate | ].
    split; [ reflexivity | ]. intros _. lookup_fields. by eexists.
  - eexists. split; [ reflexivity | ].
    split; [ lookup_fields | ].
    split; [ discriminate | ].
    split; [ intros _; split; lookup_fields | ].
    split; [ | discriminate ].
    intros [v Hv]. revert Hv. lookup_fields. discriminate.
Qed.
End WaitFacts.

(** Beyond 2^53 the timeout is the nearest double, and an infinity for
    a number of 400 digits. *)
Example wait_timeout_is_a_double :
  parseInt10 "9007199254740993" = Fin 9007199254740992
  /\ parseInt10 "9007199254740995" = Fin 9007199254740996
  /\ parseInt10 (String "1" (string_of_list_ascii (repeat "0"%char 400))) = Inf false
  /\ field_of "timeout" (@parseCommand sample_random ["wait"; "9007199254740993"] 0)
     = Some (VNum (Fin 9007199254740992)).
Proof. vm_compute. repeat split. Qed.

Lemma wait_timeout_iff_digits_witness :
  re_digits "500" = true /\ re_digits "#sel" = false
  /\ (exists cmd : Request,
        @parseCommand sample_random ["wait"; "500"] 0 = (Some cmd, 1)
        /\ cmd !! "timeout" = Some (VNum (Fin 500)))
  /\ (exists cmd : Request,
        @parseCommand sample_random ["wait"; "#sel"] 0 = (Some cmd, 1)
        /\ cmd !! "selector" = Some (VStr "#sel")).
Proof.
  split; [ reflexivity | ]. split; [ reflexivity | ]. split.
  - destruct (@wait_timeout_iff_digits sample_random "500" [] 0)
      as (cmd & Hcmd & _ & Hdigits & _).
    exists cmd. split; [ exact Hcmd | ]. exact (proj1 (Hdigits eq_refl)).
  - destruct (@wait_timeout_iff_digits sample_random "#sel" [] 0)
      as (cmd & Hcmd & _ & _ & Hother & _).
    exists cmd. split; [ exact Hcmd | ]. exact (proj1 (Hother eq_refl)).
Defined.

(** *** Actions and identifiers *)

Ltac split_members H :=
  repeat (apply elem_of_cons in H as [H | H]; [ injection H as -> -> | ]);
  try (by apply elem_of_nil in H).

Section ActionFacts.
Context `{Random}.

Lemma encode_verb_documented (id : string) (parts : list string) (action : string) :
  documented parts action ->
  exists cmd : Request,
    match parts with
    | [] => None
    | command :: rest => encode_verb id command rest
    end = Some cmd
    /\ cmd !! "action" = Some (VStr action)
    /\ cmd !! "id" = Some (VStr id).
Proof.
  intros [command action' rest Hin | what action' rest Hin].
  - unfold verb_actions in Hin. split_members Hin;
      try solve [ eexists; split; [ reflexivity | ]; split; lookup_fields ].
    + eexists. split; [ reflexivity | ].
      split; (rewrite snapshot_opts_other;
              [ lookup_fields
              | intros Hk;
                repeat (apply elem_of_cons in Hk as [Hk | Hk]; [ discriminate | ]);
                by apply elem_of_nil in Hk ]).
    + unfold encode_verb. cbn -[test_digits parseInt10_of].
      destruct (test_digits _);
        (eexists; split; [ reflexivity | ]; split; lookup_fields).
  - unfold get_actions in Hin. split_members Hin;
      (eexists; split; [ reflexivity | ]; split; lookup_fields).
Qed.

(** A draw other than 0 leaves a non-empty identifier. *)
Lemma slice_of_draw (s : string) :
  unit_draw s = true -> s <> "0" -> truthy_string (js_slice 2 10 s) = true.
Proof.
  intros Hdraw Hnonzero.
  destruct s as [|c0 [|c1 [|d ds]]]; try discriminate Hdraw.
  - destruct c0 as [[] [] [] [] [] [] [] []]; try discriminate Hdraw.
    by exfalso; apply Hnonzero.
  - destruct c0 as [[] [] [] [] [] [] [] []]; try discriminate Hdraw.
    destruct c1 as [[] [] [] [] [] [] [] []]; discriminate Hdraw.
  - reflexivity.
Qed.

(** C8, as the code has it.  For every supported verb and every draw of
    the random source, 0 included, the request has the documented action,
    and its [id] is the string of the characters 2 to 9 of the base-36
    text of the draw: non-empty for every draw but 0, and the empty string
    for the draw 0. *)
Theorem action_documented_id_of_draw
    (parts : list string) (action : string) (n : nat) :
  documented parts action ->
  unit_draw (random36 n) = true ->
  exists (cmd : Request) (id : string),
    parseCommand parts n = (Some cmd, S n)
    /\ cmd !! "action" = Some (VStr action)
    /\ cmd !! "id" = Some (VStr id)
    /\ id = js_slice 2 10 (random36 n)
    /\ (random36 n <> "0" -> truthy_string id = true)
    /\ (random36 n = "0" -> id = "").
Proof.
  intros Hdoc Hdraw.
  destruct (encode_verb_documented (js_slice 2 10 (random36 n)) parts action Hdoc)
    as (cmd & Hcmd & Haction & Hid).
  exists cmd, (js_slice 2 10 (random36 n)).
  split.
  - destruct parts as [|command rest]; [ discriminate Hcmd | ].
    cbn [parseCommand]. by rewrite Hcmd.
  - split; [ exact Haction | ]. split; [ exact Hid | ]. split; [ reflexivity | ].
    split; [ intros Hnonzero; by apply slice_of_draw | ].
    intros Hzero. by rewrite Hzero.
Qed.
End ActionFacts.

Lemma action_documented_id_of_draw_witness :
  documented ["get"; "text"; "#main"] "gettext"
  /\ unit_draw (@random36 sample_random 0) = true
  /\ exists (cmd : Request) (id : string),
       @parseCommand sample_random ["get"; "text"; "#main"] 0 = (Some cmd, 1)
       /\ cmd !! "action" = Some (VStr "gettext")
       /\ cmd !! "id" = Some (VStr id)
       /\ id = js_slice 2 10 (@random36 sample_random 0)
       /\ truthy_string id = true.
Proof.
  assert (Hdoc : documented ["get"; "text"; "#main"] "gettext").
  { apply documented_get. repeat constructor. }
  split; [ exact Hdoc | ]. split; [ reflexivity | ].
  destruct (@action_documented_id_of_draw sample_random
              ["get"; "text"; "#main"] "gettext" 0 Hdoc eq_refl)
    as (cmd & id & Hcmd & Haction & Hid & Hslice & Hnonempty & _).
  exists cmd, id. repeat split; try assumption.
  apply Hnonempty. discriminate.
Defined.

(** C8 as stated fails at the draw 0: its base-36 text is the single
    character 0, and nothing is left from position 2 on. *)
Lemma empty_id_counterexample :
  unit_draw (@random36 sample_random 2) = true
  /\ documented ["click"; "#submit"] "click"
  /\ (@parseCommand sample_random ["click"; "#submit"] 2).1
     = Some (<["selector" := VStr "#submit"]> (base "" "click"))
  /\ id_of (@parseCommand sample_random ["click"; "#submit"] 2) = Some (VStr "").
Proof.
  split; [ reflexivity | ]. split; [ apply documented_verb; repeat constructor | ].
  split; vm_compute; reflexivity.
Qed.

(** *** Missing arguments *)

Section MissingArguments.
Context `{Random}.

Lemma encode_verb_total (id command : string) (rest : list string) :
  command ∈ supported_verbs -> command <> "get" ->
  is_Some (encode_verb id command rest).
Proof.
  intros Hin Hget. unfold supported_verbs in Hin.
  repeat (apply elem_of_cons in Hin as [-> | Hin]);
    try (by apply elem_of_nil in Hin); try congruence;
    try (by eexists).
  unfold encode_verb. cbn -[test_digits parseInt10_of].
  destruct (test_digits _); by eexists.
Qed.

(** C10, as the code has it.  For every supported verb but [get] and any
    arguments, as few as they may be, [parseCommand] returns a request.
    Without arguments the fields read from the missing token are
    [undefined], the fields joined from the remaining tokens are the empty
    string, and the url of [open], [goto] and [navigate] is
    https://undefined.  A [fill] or [type] with its selector alone has the
    empty string as its text; a [--depth] without its number stores [NaN]
    and a [--selector] without its value stores [undefined]. *)
Theorem parseCommand_total_missing_arguments
    (command : string) (rest : list string) (n : nat) :
  command ∈ supported_verbs -> command <> "get" ->
  (exists cmd : Request, parseCommand (command :: rest) n = (Some cmd, S n))
  /\ (forall k v, (command, (k, v)) ∈ fields_without_arguments ->
      field_of k (parseCommand [command] n) = Some v)
  /\ (forall sel, field_of "value" (parseCommand ["fill"; sel] n) = Some (VStr "")
                  /\ field_of "text" (parseCommand ["type"; sel] n) = Some (VStr ""))
  /\ field_of "maxDepth" (parseCommand ["snapshot"; "--depth"] n) = Some (VNum NaN)
  /\ field_of "selector" (parseCommand ["snapshot"; "--selector"] n) = Some VUndef.
Proof.
  intros Hin Hget. split; [ | split; [ | split; [ | split ] ] ].
  - destruct (encode_verb_total (js_slice 2 10 (random36 n)) command rest Hin Hget)
      as [cmd Hcmd].
    exists cmd. cbn [parseCommand]. by rewrite Hcmd.
  - intros k v Hfield. unfold fields_without_arguments in Hfield.
    repeat (apply elem_of_cons in Hfield as [Hfield | Hfield];
            [ injection Hfield as -> -> ->; unfold field_of; cbn; lookup_fields | ]).
    by apply elem_of_nil in Hfield.
  - intros sel. split; unfold field_of; cbn; lookup_fields.
  - unfold field_of. cbn. lookup_fields.
  - unfold field_of. cbn. lookup_fields.
Qed.
End MissingArguments.

Lemma parseCommand_total_missing_arguments_witness :
  "press" ∈ supported_verbs
  /\ (exists cmd : Request, @parseCommand sample_random ["press"] 0 = (Some cmd, 1))
  /\ field_of "key" (@parseCommand sample_random ["press"] 0) = Some VUndef.
Proof.
  assert (Hin : "press" ∈ supported_verbs) by (unfold supported_verbs; repeat constructor).
  split; [ exact Hin | ].
  destruct (@parseCommand_total_missing_arguments sample_random "press" [] 0 Hin
              ltac:(discriminate)) as (Htotal & Hfields & _).
  split; [ exact Htotal | ].
  apply Hfields. unfold fields_without_arguments. repeat constructor.
Defined.

(** C10 as stated fails where a field is joined from the tokens that are
    left: without a script, [eval] stores the empty string, and so does
    [fill] for its value; neither is [undefined]. *)
Lemma missing_text_counterexample :
  (@parseCommand sample_random ["eval"] 0).1
  = Some (<["script" := VStr ""]> (base "4fzyo82m" "evaluate"))
  /\ field_of "script" (@parseCommand sample_random ["eval"] 0) = Some (VStr "")
  /\ field_of "value" (@parseCommand sample_random ["fill"] 0) = Some (VStr "")
  /\ field_of "selector" (@parseCommand sample_random ["fill"] 0) = Some VUndef.
Proof. repeat split; vm_compute; reflexivity. Qed.

Example navigate_without_url :
  url_of (@parseCommand sample_random ["open"] 0) = Some (VStr "https://undefined").
Proof. vm_compute. reflexivity. Qed.

(** ** Properties of the transport *)

Section TransportFacts.
Context `{Json}.

Lemma fresh_exchange_inv : exchange_inv fresh_exchange.
Proof. repeat split. Qed.

Ltac exchange_cases :=
  repeat match goal with
         | |- context [if ?b then _ else _] => destruct b eqn:?
         | |- context [match ?o with Some _ => _ | None => _ end] => destruct o eqn:?
         end.

Lemma step_inv (cmd : Request) (x : exchange) (ev : event) :
  exchange_inv x -> exchange_inv (step cmd x ev).
Proof.
  intros (Hsettled & Hsame & Hremoved & Hpending).
  destruct x as [buf res lis rem des wr st]; cbn in *.
  destruct res, lis; try (by specialize (Hpending eq_refl));
    destruct ev; unfold step, on_connect, on_data, on_error, on_close, on_timeout;
    cbn; exchange_cases; cbn in *; subst;
    repeat split; cbn; rewrite ?length_app; cbn;
    first [ lia | congruence | (intros; congruence) ].
Qed.

Lemma fold_step_inv (cmd : Request) (evs : list event) (x : exchange) :
  exchange_inv x -> exchange_inv (fold_left (step cmd) evs x).
Proof.
  revert x. induction evs as [|ev evs IH]; intros x Hx; cbn.
  - exact Hx.
  - apply IH. by apply step_inv.
Qed.

Lemma run_inv (cmd : Request) (evs : list event) : exchange_inv (run cmd evs).
Proof. apply fold_step_inv, fresh_exchange_inv. Qed.

Lemma run_snoc (cmd : Request) (evs : list event) (ev : event) :
  run cmd (evs ++ [ev]) = step cmd (run cmd evs) ev.
Proof. unfold run. by rewrite fold_left_app. Qed.

(** X1.  [resolve] and [reject] are called at most once in an exchange. *)
Lemma settled_at_most_once (cmd : Request) (evs : list event) :
  List.length (settled (run cmd evs)) <= 1.
Proof.
  destruct (run_inv cmd evs) as (Hsettled & _). rewrite Hsettled.
  destruct (resolved _); lia.
Qed.

(** [cleanup] runs at most once, and takes the socket down with the
    listeners. *)
Lemma cleanup_at_most_once (cmd : Request) (evs : list event) :
  removed (run cmd evs) <= 1 /\ destroyed (run cmd evs) = removed (run cmd evs).
Proof.
  destruct (run_inv cmd evs) as (_ & Hsame & Hremoved & _).
  rewrite <- Hsame, Hremoved. destruct (listening _); lia.
Qed.

(** X2.  An event that settles the promise runs [cleanup] unless it is the
    close of the connection. *)
Lemma settling_event_cleans_up_unless_close
    (cmd : Request) (evs : list event) (ev : event) :
  resolved (run cmd evs) = false ->
  resolved (run cmd (evs ++ [ev])) = true ->
  removed (run cmd (evs ++ [ev])) = (match ev with Close => 0 | _ => 1 end).
Proof.
  rewrite run_snoc. intros Hpending.
  destruct (run_inv cmd evs) as (_ & _ & Hremoved & Hlistening).
  specialize (Hlistening Hpending). rewrite Hlistening in Hremoved.
  destruct (run cmd evs) as [buf res lis rem des wr st]; cbn in *; subst.
  destruct ev; unfold step, on_connect, on_data, on_error, on_close, on_timeout;
    cbn; exchange_cases; cbn; congruence.
Qed.

(** The timer settles what the socket left pending: [sendCommand]
    always comes to an outcome, the one the promise holds. *)
Lemma sendCommand_settles (cmd : Request) (evs : list event) :
  promise (sendCommand_exchange cmd evs) = Some (sendCommand cmd evs).
Proof.
  unfold sendCommand. destruct (promise (sendCommand_exchange cmd evs)) eqn:Hp;
    [ reflexivity | ].
  exfalso. unfold promise, sendCommand_exchange in Hp.
  destruct (run_inv cmd (evs ++ [Timeout])) as (Hsettled & _).
  assert (Hres : resolved (run cmd (evs ++ [Timeout])) = true).
  { rewrite run_snoc. cbn. unfold on_timeout.
    destruct (resolved (run cmd evs)) eqn:Hr; [ exact Hr | reflexivity ]. }
  rewrite Hres in Hsettled.
  destruct (settled (run cmd (evs ++ [Timeout]))); cbn in *; congruence.
Qed.

(** Once an exchange is resolved no event changes its promise. *)
Lemma resolved_promise_stable (cmd : Request) (x : exchange) (ev : event) :
  resolved x = true -> promise (step cmd x ev) = promise x
                       /\ resolved (step cmd x ev) = true.
Proof.
  intros Hres. destruct x as [buf res lis rem des wr st]; cbn in *; subst.
  destruct ev; unfold step, on_connect, on_data, on_error, on_close, on_timeout;
    cbn; exchange_cases; by split.
Qed.
End TransportFacts.

Lemma settling_event_cleans_up_unless_close_witness :
  resolved (@run sample_json (request "a" "snapshot") [Connect]) = false
  /\ removed (@run sample_json (request "a" "snapshot") ([Connect] ++ [Timeout])) = 1.
Proof.
  split; [ reflexivity | ].
  exact (@settling_event_cleans_up_unless_close sample_json
           (request "a" "snapshot") [Connect] Timeout eq_refl eq_refl).
Defined.

Section CloseFacts.
Context `{Json}.

(** C3, as the code has it.  When the connection closes before the
    exchange is resolved and the trimmed buffer is not empty,
    [sendCommand] parses the trimmed buffer: the exchange resolves with
    the response if it parses, and fails with the error Connection closed
    if it does not.  When nothing but white space was buffered the close
    settles nothing, and the exchange fails with the error Timeout once
    the timer fires. *)
Theorem close_parses_buffer_or_waits (cmd : Request) (evs : list event) :
  resolved (run cmd evs) = false ->
  (truthy_string (js_trim (buffer (run cmd evs))) = true ->
   forall response,
     (JSON_parse (js_trim (buffer (run cmd evs))) = Some response ->
      promise (run cmd (evs ++ [Close])) = Some (Resolved response)
      /\ sendCommand cmd (evs ++ [Close]) = Resolved response)
     /\ (JSON_parse (js_trim (buffer (run cmd evs))) = None ->
         promise (run cmd (evs ++ [Close])) = Some (Rejected "Connection closed")
         /\ sendCommand cmd (evs ++ [Close]) = Rejected "Connection closed"))
  /\ (truthy_string (js_trim (buffer (run cmd evs))) = false ->
      run cmd (evs ++ [Close]) = run cmd evs
      /\ promise (run cmd (evs ++ [Close])) = None
      /\ sendCommand cmd (evs ++ [Close]) = Rejected "Timeout").
Proof.
  intros Hpending.
  destruct (run_inv cmd evs) as (Hsettled & _ & _ & Hlistening).
  specialize (Hlistening Hpending). rewrite Hpending in Hsettled.
  assert (Hnone : settled (run cmd evs) = []).
  { destruct (settled (run cmd evs)); [ reflexivity | discriminate ]. }
  assert (Hclose : run cmd (evs ++ [Close]) = on_close (run cmd evs)).
  { rewrite run_snoc. cbn. by rewrite Hlistening. }
  assert (Hsend : forall o,
             promise (on_close (run cmd evs)) = Some o ->
             resolved (on_close (run cmd evs)) = true ->
             sendCommand cmd (evs ++ [Close]) = o).
  { intros o Ho Hres.
    pose proof (sendCommand_settles cmd (evs ++ [Close])) as Hs.
    unfold sendCommand_exchange in Hs. rewrite run_snoc, Hclose in Hs.
    destruct (resolved_promise_stable cmd _ Timeout Hres) as [Hsame _].
    congruence. }
  split.
  - intros Htruthy response. split; intros Hparse.
    + assert (Hx : on_close (run cmd evs)
                   = settle (Resolved response) (set_resolved (run cmd evs))).
      { unfold on_close. rewrite Hpending, Htruthy. cbn [negb andb].
        change (buffer (set_resolved (run cmd evs))) with (buffer (run cmd evs)).
        by rewrite Hparse. }
      assert (Hp : promise (on_close (run cmd evs)) = Some (Resolved response)).
      { rewrite Hx. unfold promise. cbn. by rewrite Hnone. }
      split; [ by rewrite Hclose | ]. apply Hsend; [ exact Hp | by rewrite Hx ].
    + assert (Hx : on_close (run cmd evs)
                   = settle (Rejected "Connection closed") (set_resolved (run cmd evs))).
      { unfold on_close. rewrite Hpending, Htruthy. cbn [negb andb].
        change (buffer (set_resolved (run cmd evs))) with (buffer (run cmd evs)).
        by rewrite Hparse. }
      assert (Hp : promise (on_close (run cmd evs))
                   = Some (Rejected "Connection closed")).
      { rewrite Hx. unfold promise. cbn. by rewrite Hnone. }
      split; [ by rewrite Hclose | ]. apply Hsend; [ exact Hp | by rewrite Hx ].
  - intros Hempty.
    assert (Hx : on_close (run cmd evs) = run cmd evs).
    { unfold on_close. by rewrite Hpending, Hempty. }
    rewrite Hclose, Hx. split; [ reflexivity | ].
    split; [ unfold promise; by rewrite Hnone | ].
    pose proof (sendCommand_settles cmd (evs ++ [Close])) as Hs.
    unfold sendCommand_exchange in Hs. rewrite run_snoc, Hclose, Hx in Hs.
    cbn in Hs. unfold on_timeout in Hs. rewrite Hpending in Hs.
    unfold promise in Hs. cbn in Hs. rewrite Hnone in Hs. cbn in Hs. congruence.
Qed.
End CloseFacts.

(** The sample daemon answers a request "a" without the final newline
    and closes. *)
Lemma close_parses_buffer_or_waits_witness :
  resolved (@run sample_json (request "a" "snapshot") [Connect; Data (ok_line "a")]) = false
  /\ @sendCommand sample_json (request "a" "snapshot")
       [Connect; Data (ok_line "a"); Close]
     = Resolved (ok_response "a").
Proof.
  assert (Hpending :
    resolved (@run sample_json (request "a" "snapshot") [Connect; Data (ok_line "a")])
    = false) by reflexivity.
  split; [ exact Hpending | ].
  destruct (@close_parses_buffer_or_waits sample_json (request "a" "snapshot")
              [Connect; Data (ok_line "a")] Hpending) as [Hbuffered _].
  destruct (Hbuffered eq_refl (ok_response "a")) as [Hparsed _].
  exact (proj2 (Hparsed eq_refl)).
Defined.

(** C3 as stated fails when nothing was buffered: the close leaves the
    promise pending and the exchange fails with Timeout, not with
    Connection closed. *)
Lemma close_with_empty_buffer_counterexample :
  resolved (@run sample_json (request "a" "reload") [Connect]) = false
  /\ buffer (@run sample_json (request "a" "reload") [Connect]) = ""
  /\ promise (@run sample_json (request "a" "reload") [Connect; Close]) = None
  /\ @sendCommand sample_json (request "a" "reload") [Connect; Close]
     = Rejected "Timeout".
Proof. repeat split. Qed.

(** C2 at the input where it fails.  The daemon writes its answer without
    a final newline and closes: the close settles the promise, and neither
    [socket.removeAllListeners()] nor [socket.destroy()] is ever called,
    not even by the timer. *)
Theorem close_path_never_cleans_up :
  let x := @sendCommand_exchange sample_json (request "a" "snapshot")
             [Connect; Data (ok_line "a"); Close] in
  settled x = [Resolved (ok_response "a")]
  /\ resolved x = true
  /\ removed x = 0
  /\ destroyed x = 0
  /\ listening x = true.
Proof. vm_compute. repeat split. Qed.

(** The three other paths at the same request: each runs [cleanup] once. *)
Example other_paths_clean_up :
  let cmd := request "a" "snapshot" in
  let by_data := @sendCommand_exchange sample_json cmd
                   [Connect; Data (ok_line "a" +:+ String newline ""); Close] in
  let by_error := @sendCommand_exchange sample_json cmd
                    [SocketError "connect ENOENT"; Close] in
  let by_timer := @sendCommand_exchange sample_json cmd [Connect] in
  (settled by_data, removed by_data, destroyed by_data)
    = ([Resolved (ok_response "a")], 1, 1)
  /\ (settled by_error, removed by_error, destroyed by_error)
     = ([Rejected "connect ENOENT"], 1, 1)
  /\ (settled by_timer, removed by_timer, destroyed by_timer)
     = ([Rejected "Timeout"], 1, 1).
Proof. vm_compute. repeat split. Qed.

(** ** Properties of the batch executor *)

Section BatchFacts.
Context `{Json} `{Daemon}.



End BatchFacts.

Section WireFacts.
Context `{Json} `{Daemon}.




End WireFacts.



Example runBatch_two_successes :
  let r := @runBatch sample_json sample_daemon
             [request "a" "navigate"; request "b" "snapshot"] true in
  (run_completed r, run_total r, run_success r, run_exit r) = (2, 2, true, 0%Z)
  /\ run_console r = [LogJson true [ok_response "a"; ok_response "b"] 2 2].
Proof. vm_compute. split; reflexivity. Qed.

(** ** Properties of the daemon supervisor *)

Section SupervisorFacts.
Context `{Host}.

Lemma isDaemonRunning_alive (w : world) :
  isDaemonRunning w = true <-> recorded_pid_answers w.
Proof.
  unfold isDaemonRunning, existsSync, readFileSync, recorded_pid_answers. split.
  - destruct (fs w PID_FILE) as [[content| |]|]; cbn [negb]; try discriminate.
    unfold process_kill0.
    destruct (parseInt10 (js_trim content)) as [|pid|neg] eqn:Hpid;
      [ discriminate | | discriminate ].
    destruct ((-2147483648 <=? pid)%Z && (pid <=? 2147483647)%Z) eqn:Hrange;
      [ | discriminate ].
    intros Hkill. exists content, pid. apply andb_prop in Hrange as [Hlo Hhi].
    apply Z.leb_le in Hlo, Hhi. done.
  - intros (content & pid & -> & Hpid & [Hlo Hhi] & Hkill). cbn [negb].
    rewrite Hpid. unfold process_kill0.
    apply Z.leb_le in Hlo, Hhi. by rewrite Hlo, Hhi.
Qed.

Lemma ensureDaemon_ready (timeline : nat -> world) :
  (ensureDaemon timeline).1 = Ready
  <-> isDaemonRunning (timeline 0) = true
      /\ existsSync (timeline 0) SOCKET_PATH = true.
Proof.
  unfold ensureDaemon.
  destruct (isDaemonRunning (timeline 0)), (existsSync (timeline 0) SOCKET_PATH);
    cbn [andb]; [ by split | | | ];
    (split; [ | intros [? ?]; discriminate ]);
    repeat match goal with
           | |- context [if ?b then _ else _] => destruct b
           | |- context [match ?o with Some _ => _ | None => _ end] => destruct o
           end; cbn; discriminate.
Qed.

(** C9, as the code has it.  The marker file absent, its content without
    a number, or the probe [kill(pid, 0)] of the recorded number failing:
    [isDaemonRunning] is false, whether or not the socket is there, and
    [ensureDaemon] does not take its early return.  [ensureDaemon] returns
    at once, having spawned nothing, exactly when the probe of the
    recorded number succeeds and the socket exists. *)
Theorem daemon_ready_iff_alive_and_socket (timeline : nat -> world) :
  (fs (timeline 0) PID_FILE = None -> isDaemonRunning (timeline 0) = false)
  /\ (forall content,
        fs (timeline 0) PID_FILE = Some (File content) ->
        parseInt10 (js_trim content) = NaN ->
        isDaemonRunning (timeline 0) = false)
  /\ (forall content pid,
        fs (timeline 0) PID_FILE = Some (File content) ->
        parseInt10 (js_trim content) = Fin pid ->
        kill0 (timeline 0) pid = false ->
        isDaemonRunning (timeline 0) = false)
  /\ (isDaemonRunning (timeline 0) = false ->
      forall spawned, ensureDaemon timeline <> (Ready, spawned))
  /\ (ensureDaemon timeline = (Ready, [])
      <-> recorded_pid_answers (timeline 0)
          /\ existsSync (timeline 0) SOCKET_PATH = true)
  /\ ((ensureDaemon timeline).1 = Ready -> (ensureDaemon timeline).2 = []).
Proof.
  assert (Hready : (ensureDaemon timeline).1 = Ready ->
                   ensureDaemon timeline = (Ready, [])).
  { intros Hr. apply ensureDaemon_ready in Hr as [Hrun Hsock].
    unfold ensureDaemon. by rewrite Hrun, Hsock. }
  split; [ | split; [ | split; [ | split; [ | split ] ] ] ].
  - intros Habsent. unfold isDaemonRunning, existsSync. by rewrite Habsent.
  - intros content Hfile Hnan.
    unfold isDaemonRunning, existsSync, readFileSync. rewrite Hfile. cbn [negb].
    by rewrite Hnan.
  - intros content pid Hfile Hpid Hdead.
    unfold isDaemonRunning, existsSync, readFileSync. rewrite Hfile. cbn [negb].
    rewrite Hpid. unfold process_kill0. rewrite Hdead. by destruct (_ && _).
  - intros Hnot spawned Heq.
    assert (Hr : (ensureDaemon timeline).1 = Ready) by (by rewrite Heq).
    apply ensureDaemon_ready in Hr as [Hrun _]. congruence.
  - rewrite <- isDaemonRunning_alive, <- ensureDaemon_ready. split.
    + intros Heq. by rewrite Heq.
    + exact Hready.
  - intros Hr. by rewrite (Hready Hr).
Qed.
End SupervisorFacts.

Lemma daemon_ready_iff_alive_and_socket_witness :
  fs stale_world (@PID_FILE sample_host) = Some (File " 4242 ")
  /\ kill0 stale_world 4242 = false
  /\ @existsSync stale_world (@SOCKET_PATH sample_host) = true
  /\ @isDaemonRunning sample_host stale_world = false
  /\ @ensureDaemon sample_host (fun _ => stale_world)
     = (Started 0, [("/opt/agent-browser/dist/daemon.js", "default")])
  /\ @ensureDaemon sample_host (fun _ => live_world) = (Ready, []).
Proof.
  destruct (@daemon_ready_iff_alive_and_socket sample_host (fun _ => stale_world))
    as (_ & _ & Hdead & _).
  split; [ reflexivity | ]. split; [ reflexivity | ]. split; [ reflexivity | ].
  split; [ exact (Hdead " 4242 " 4242%Z eq_refl eq_refl eq_refl) | ].
  split; [ reflexivity | ].
  destruct (@daemon_ready_iff_alive_and_socket sample_host (fun _ => live_world))
    as (_ & _ & _ & _ & Hiff & _).
  apply Hiff. split; [ | reflexivity ].
  exists " 4242 ", 4242%Z. repeat split; try reflexivity; discriminate.
Defined.

(** C9 as stated fails both ways, because the probe is not the existence
    of the process.  With the marker 0 no recorded process exists, and yet
    the daemon counts as running and [ensureDaemon] returns at once.  With
    the daemon of another user the recorded process is alive and the
    socket exists, and yet the daemon counts as not running and a new one
    is spawned. *)
Lemma probe_is_not_existence_counterexample :
  @recorded_pid sample_host (seen zero_marker_machine) = Some 0%Z
  /\ process_exists zero_marker_machine 0 = false
  /\ @isDaemonRunning sample_host (seen zero_marker_machine) = true
  /\ @ensureDaemon sample_host (fun _ => seen zero_marker_machine) = (Ready, [])
  /\ @recorded_pid sample_host (seen foreign_daemon_machine) = Some 4242%Z
  /\ process_exists foreign_daemon_machine 4242 = true
  /\ @existsSync (seen foreign_daemon_machine) (@SOCKET_PATH sample_host) = true
  /\ @isDaemonRunning sample_host (seen foreign_daemon_machine) = false
  /\ @ensureDaemon sample_host (fun _ => seen foreign_daemon_machine)
     = (Started 0, [("/opt/agent-browser/dist/daemon.js", "default")]).
Proof. vm_compute. repeat split. Qed.

(** ** More on the transport *)

Lemma append_cons (c : ascii) (s t : string) : String c s +:+ t = String c (s +:+ t).
Proof. reflexivity. Qed.

Lemma append_assoc (a b c : string) : (a +:+ b) +:+ c = a +:+ (b +:+ c).
Proof.
  induction a as [|ch a IH]; [ reflexivity | ].
  by rewrite !append_cons, IH.
Qed.

Lemma index_newline_cons (c : ascii) (s : string) :
  String.index 0 (String newline "") (String c s)
  = if Ascii.eqb newline c then Some 0
    else match String.index 0 (String newline "") s with
         | Some n => Some (S n)
         | None => None
         end.
Proof.
  cbn [String.index String.prefix].
  destruct (Ascii.ascii_dec newline c) as [<- | Hne].
  - rewrite Ascii.eqb_refl. by destruct s.
  - by rewrite (proj2 (Ascii.eqb_neq _ _) Hne).
Qed.

(** The first newline of a text is the first newline of any text it
    starts, and so is the line before it. *)
Lemma first_newline_app (s t : string) (i : nat) :
  String.index 0 (String newline "") s = Some i ->
  String.index 0 (String newline "") (s +:+ t) = Some i
  /\ String.substring 0 i (s +:+ t) = String.substring 0 i s.
Proof.
  revert i. induction s as [|c s IH]; intros i Hi; [ discriminate Hi | ].
  rewrite append_cons. rewrite index_newline_cons in Hi |- *.
  destruct (Ascii.eqb newline c).
  - injection Hi as <-. by split.
  - destruct (String.index 0 (String newline "") s) as [j|] eqn:Hj; [ | discriminate Hi ].
    injection Hi as <-. destruct (IH j eq_refl) as [-> Hsub].
    split; [ reflexivity | ]. cbn [String.substring]. by rewrite Hsub.
Qed.

Section TransportMore.
Context `{Json}.

Lemma fold_resolved_stable (cmd : Request) (evs : list event) (x : exchange) :
  resolved x = true ->
  promise (fold_left (step cmd) evs x) = promise x
  /\ resolved (fold_left (step cmd) evs x) = true.
Proof.
  revert x. induction evs as [|ev evs IH]; intros x Hres; [ by split | ].
  cbn [fold_left].
  destruct (resolved_promise_stable cmd x ev Hres) as [Hp Hr].
  destruct (IH _ Hr) as [Hp' Hr']. split; [ congruence | exact Hr' ].
Qed.

Lemma run_app (cmd : Request) (evs later : list event) :
  run cmd (evs ++ later) = fold_left (step cmd) later (run cmd evs).
Proof. unfold run. by rewrite fold_left_app. Qed.

(** What [sendCommand] comes to once the promise holds [o] after [evs]. *)
Lemma sendCommand_of_promise (cmd : Request) (evs later : list event) (o : outcome) :
  resolved (run cmd evs) = true ->
  promise (run cmd evs) = Some o ->
  sendCommand cmd (evs ++ later) = o.
Proof.
  intros Hres Hp.
  pose proof (sendCommand_settles cmd (evs ++ later)) as Hs.
  unfold sendCommand_exchange in Hs. rewrite <- app_assoc, run_app in Hs.
  destruct (fold_resolved_stable cmd (later ++ [Timeout]) _ Hres) as [Hstable _].
  congruence.
Qed.

Lemma pending_state (cmd : Request) (evs : list event) :
  resolved (run cmd evs) = false ->
  listening (run cmd evs) = true /\ settled (run cmd evs) = []
  /\ removed (run cmd evs) = 0 /\ destroyed (run cmd evs) = 0.
Proof.
  intros Hpending.
  destruct (run_inv cmd evs) as (Hsettled & Hsame & Hremoved & Hlistening).
  specialize (Hlistening Hpending).
  rewrite Hpending in Hsettled. rewrite Hlistening in Hremoved.
  repeat split; try done; try lia.
  destruct (settled (run cmd evs)); [ reflexivity | discriminate ].
Qed.

(** X3.  Once an exchange is resolved, nothing that happens later changes
    its outcome. *)
Theorem outcome_is_final (cmd : Request) (evs later : list event) :
  resolved (run cmd evs) = true ->
  promise (run cmd (evs ++ later)) = promise (run cmd evs)
  /\ sendCommand cmd (evs ++ later) = sendCommand cmd evs.
Proof.
  intros Hres. split.
  - rewrite run_app. by apply fold_resolved_stable.
  - destruct (promise (run cmd evs)) as [o|] eqn:Hp.
    + rewrite (sendCommand_of_promise cmd evs later o Hres Hp).
      pose proof (sendCommand_of_promise cmd evs [] o Hres Hp) as Hnow.
      rewrite app_nil_r in Hnow. by rewrite Hnow.
    + destruct (run_inv cmd evs) as (Hsettled & _). rewrite Hres in Hsettled.
      unfold promise in Hp. destruct (settled (run cmd evs)); discriminate.
Qed.

(** X4.  The first complete line decides.  When a chunk of data brings the
    first newline into the buffer of an unresolved exchange, the text
    before that newline is parsed: the exchange resolves with it, or fails
    at once with Invalid JSON response; [cleanup] has run, and whatever
    follows on the connection is ignored. *)
Theorem first_line_decides
    (cmd : Request) (evs later : list event) (chunk : string) (idx : nat) :
  resolved (run cmd evs) = false ->
  String.index 0 (String newline "") (buffer (run cmd evs) +:+ chunk) = Some idx ->
  sendCommand cmd (evs ++ Data chunk :: later)
  = match JSON_parse (String.substring 0 idx (buffer (run cmd evs) +:+ chunk)) with
    | Some response => Resolved response
    | None => Rejected "Invalid JSON response"
    end
  /\ removed (run cmd (evs ++ Data chunk :: later)) = 1
  /\ destroyed (run cmd (evs ++ Data chunk :: later)) = 1
  /\ listening (run cmd (evs ++ Data chunk :: later)) = false.
Proof.
  intros Hpending Hidx.
  destruct (pending_state cmd evs Hpending) as (Hlistening & Hnone & Hrem & Hdes).
  set (o := match JSON_parse (String.substring 0 idx (buffer (run cmd evs) +:+ chunk)) with
            | Some response => Resolved response
            | None => Rejected "Invalid JSON response"
            end).
  assert (Hdata : run cmd (evs ++ [Data chunk])
                  = settle o (cleanup (set_resolved (append_buffer chunk (run cmd evs))))).
  { rewrite run_snoc. cbn [step]. rewrite Hlistening. unfold on_data.
    change (buffer (append_buffer chunk (run cmd evs)))
      with (buffer (run cmd evs) +:+ chunk).
    rewrite Hidx.
    change (resolved (append_buffer chunk (run cmd evs))) with (resolved (run cmd evs)).
    rewrite Hpending.
    change (buffer (set_resolved (append_buffer chunk (run cmd evs))))
      with (buffer (run cmd evs) +:+ chunk).
    subst o. by destruct (JSON_parse _). }
  assert (Hres : resolved (run cmd (evs ++ [Data chunk])) = true) by (by rewrite Hdata).
  assert (Hp : promise (run cmd (evs ++ [Data chunk])) = Some o).
  { rewrite Hdata. unfold promise. cbn. by rewrite Hnone. }
  replace (evs ++ Data chunk :: later)%list with ((evs ++ [Data chunk]) ++ later)%list
    by (by rewrite <- app_assoc).
  split; [ by apply sendCommand_of_promise | ].
  destruct (run_inv cmd ((evs ++ [Data chunk]) ++ later))
    as (_ & Hsame & Hremoved & _).
  assert (Hstill : listening (run cmd ((evs ++ [Data chunk]) ++ later)) = false).
  { rewrite run_app. generalize later.
    assert (Hl0 : listening (run cmd (evs ++ [Data chunk])) = false) by (by rewrite Hdata).
    revert Hl0. generalize (run cmd (evs ++ [Data chunk])).
    intros x Hx l. revert x Hx. induction l as [|ev l IH]; intros x Hx; [ exact Hx | ].
    cbn [fold_left]. apply IH.
    destruct ev; cbn [step]; rewrite ?Hx; try reflexivity.
    unfold on_timeout. destruct (resolved x); [ exact Hx | reflexivity ]. }
  rewrite Hstill in Hremoved. rewrite <- Hsame, Hremoved. by repeat split.
Qed.

(** X5.  A socket error that reaches an unresolved exchange fails it with the
    error's own message. *)
Theorem socket_error_rejects_pending
    (cmd : Request) (evs later : list event) (message : string) :
  resolved (run cmd evs) = false ->
  sendCommand cmd (evs ++ SocketError message :: later) = Rejected message
  /\ removed (run cmd (evs ++ [SocketError message])) = 1
  /\ destroyed (run cmd (evs ++ [SocketError message])) = 1.
Proof.
  intros Hpending.
  destruct (pending_state cmd evs Hpending) as (Hlistening & Hnone & Hrem & Hdes).
  assert (Herr : run cmd (evs ++ [SocketError message])
                 = settle (Rejected message) (cleanup (set_resolved (run cmd evs)))).
  { rewrite run_snoc. cbn [step]. rewrite Hlistening. unfold on_error.
    by rewrite Hpending. }
  replace (evs ++ SocketError message :: later)%list
    with ((evs ++ [SocketError message]) ++ later)%list by (by rewrite <- app_assoc).
  split.
  - apply sendCommand_of_promise; rewrite Herr; [ reflexivity | ].
    unfold promise. cbn. by rewrite Hnone.
  - rewrite Herr. cbn. by rewrite Hrem, Hdes.
Qed.

(** X6.  An exchange on which nothing arrives (the socket connects or closes,
    no data, no error) fails with Timeout, and the timer takes the
    connection down. *)
Theorem silent_exchange_times_out (cmd : Request) (evs : list event) :
  Forall (fun ev => ev = Connect \/ ev = Close) evs ->
  sendCommand cmd evs = Rejected "Timeout"
  /\ settled (sendCommand_exchange cmd evs) = [Rejected "Timeout"]
  /\ destroyed (sendCommand_exchange cmd evs) = 1
  /\ removed (sendCommand_exchange cmd evs) = 1
  /\ listening (sendCommand_exchange cmd evs) = false.
Proof.
  intros Hsilent.
  assert (Hidle : buffer (run cmd evs) = "" /\ resolved (run cmd evs) = false
                  /\ listening (run cmd evs) = true /\ removed (run cmd evs) = 0
                  /\ destroyed (run cmd evs) = 0 /\ settled (run cmd evs) = []).
  { induction evs as [|ev evs IH] using rev_ind; [ by repeat split | ].
    apply Forall_app in Hsilent as [Hevs Hev]. apply Forall_cons in Hev as [Hev _].
    destruct (IH Hevs) as (Hbuf & Hres & Hlis & Hrem & Hdes & Hset).
    rewrite run_snoc. destruct Hev as [-> | ->]; cbn [step]; rewrite Hlis.
    - by repeat split.
    - unfold on_close. rewrite Hres, Hbuf. by repeat split. }
  destruct Hidle as (Hbuf & Hres & Hlis & Hrem & Hdes & Hset).
  assert (Hx : sendCommand_exchange cmd evs
               = settle (Rejected "Timeout") (cleanup (set_resolved (run cmd evs)))).
  { unfold sendCommand_exchange. rewrite run_snoc. cbn [step]. unfold on_timeout.
    by rewrite Hres. }
  unfold sendCommand. rewrite Hx. unfold promise. cbn. rewrite Hset, Hrem, Hdes.
  by repeat split.
Qed.

(** X7.  The transport writes nothing but the line of its request: the
    serialized request and a newline, at most once for each connect. *)
Theorem writes_only_the_request (cmd : Request) (evs : list event) :
  Forall (fun line => line = JSON_stringify cmd +:+ String newline "")
    (written (run cmd evs))
  /\ List.length (written (run cmd evs)) <= List.length (List.filter is_connect evs).
Proof.
  induction evs as [|ev evs [IHlines IHcount]] using rev_ind.
  - split; [ constructor | cbn; lia ].
  - rewrite run_snoc, List.filter_app, length_app.
    destruct (run cmd evs) as [buf res lis rem des wr st]; cbn in IHlines, IHcount.
    destruct ev; unfold step, on_connect, on_data, on_error, on_close, on_timeout; cbn;
      repeat match goal with
             | |- context [if ?b then _ else _] => destruct b
             | |- context [match ?o with Some _ => _ | None => _ end] => destruct o
             end; cbn;
      try (split; [ exact IHlines | lia ]).
    split; [ | rewrite length_app; cbn; lia ].
    apply Forall_app. split; [ exact IHlines | by repeat constructor ].
Qed.

Lemma step_same_but_dead_buffer (cmd : Request) (x y : exchange) (ev : event) :
  same_but_dead_buffer x y ->
  same_but_dead_buffer (step cmd x ev) (step cmd y ev).
Proof.
  intros (Hres & Hlis & Hrem & Hdes & Hwr & Hset & Hbuf).
  destruct x as [b1 r1 l1 m1 d1 w1 s1], y as [b2 r2 l2 m2 d2 w2 s2]; cbn in *; subst.
  destruct l2.
  - rewrite (Hbuf eq_refl). by repeat split.
  - destruct ev; cbn; try (by repeat split).
    unfold on_timeout; cbn. destruct r2; cbn; by repeat split.
Qed.

Lemma fold_same_but_dead_buffer (cmd : Request) (evs : list event) (x y : exchange) :
  same_but_dead_buffer x y ->
  same_but_dead_buffer (fold_left (step cmd) evs x) (fold_left (step cmd) evs y).
Proof.
  revert x y. induction evs as [|ev evs IH]; intros x y Hxy; [ exact Hxy | ].
  cbn [fold_left]. by apply IH, step_same_but_dead_buffer.
Qed.

Lemma append_buffer_twice (a b : string) (x : exchange) :
  append_buffer b (append_buffer a x) = append_buffer (a +:+ b) x.
Proof. unfold append_buffer. cbn. by rewrite append_assoc. Qed.

Lemma on_data_resolved (chunk : string) (x : exchange) :
  resolved x = true -> on_data chunk x = append_buffer chunk x.
Proof.
  intros Hres. unfold on_data.
  change (resolved (append_buffer chunk x)) with (resolved x). rewrite Hres.
  by destruct (String.index _ _ _).
Qed.

Lemma on_data_no_newline (chunk : string) (x : exchange) :
  String.index 0 (String newline "") (buffer x +:+ chunk) = None ->
  on_data chunk x = append_buffer chunk x.
Proof.
  intros Hnone. unfold on_data.
  change (buffer (append_buffer chunk x)) with (buffer x +:+ chunk).
  by rewrite Hnone.
Qed.

Lemma on_data_newline (chunk : string) (x : exchange) (idx : nat) :
  resolved x = false ->
  String.index 0 (String newline "") (buffer x +:+ chunk) = Some idx ->
  on_data chunk x
  = settle (match JSON_parse (String.substring 0 idx (buffer x +:+ chunk)) with
            | Some response => Resolved response
            | None => Rejected "Invalid JSON response"
            end)
      (cleanup (set_resolved (append_buffer chunk x))).
Proof.
  intros Hpending Hidx. unfold on_data.
  change (buffer (append_buffer chunk x)) with (buffer x +:+ chunk). rewrite Hidx.
  change (resolved (append_buffer chunk x)) with (resolved x). rewrite Hpending.
  change (buffer (set_resolved (append_buffer chunk x))) with (buffer x +:+ chunk).
  by destruct (JSON_parse _).
Qed.

Lemma same_but_dead_buffer_refl (x : exchange) : same_but_dead_buffer x x.
Proof. by repeat split. Qed.

(** X8.  Two data events in a row, delivering the decoded texts [a] then
    [b], leave the exchange with the same outcome as one data event
    delivering the text [a +:+ b].  This is about the texts the handler
    appends, each the decoding of its own chunk, not about the bytes on
    the socket. *)
Theorem chunking_does_not_matter
    (cmd : Request) (before after : list event) (a b : string) :
  sendCommand cmd (before ++ Data a :: Data b :: after)
  = sendCommand cmd (before ++ Data (a +:+ b) :: after).
Proof.
  assert (Hsim : same_but_dead_buffer
                   (run cmd (before ++ Data a :: Data b :: after ++ [Timeout]))
                   (run cmd (before ++ Data (a +:+ b) :: after ++ [Timeout]))).
  { rewrite !run_app. cbn [fold_left]. apply fold_same_but_dead_buffer.
    generalize (run cmd before). intros x.
    destruct (listening x) eqn:Hlis; cbn [step]; rewrite !Hlis;
      [ | rewrite ?Hlis; apply same_but_dead_buffer_refl ].
    destruct (resolved x) eqn:Hres.
    - rewrite (on_data_resolved a x Hres), (on_data_resolved (a +:+ b) x Hres).
      change (listening (append_buffer a x)) with (listening x). rewrite Hlis.
      rewrite (on_data_resolved b (append_buffer a x) Hres), append_buffer_twice.
      apply same_but_dead_buffer_refl.
    - destruct (String.index 0 (String newline "") (buffer x +:+ a)) as [i|] eqn:Hi.
      + destruct (first_newline_app (buffer x +:+ a) b i Hi) as [Hi' Hsub].
        rewrite append_assoc in Hi', Hsub.
        rewrite (on_data_newline a x i Hres Hi).
        rewrite (on_data_newline (a +:+ b) x i Hres Hi'). rewrite Hsub.
        cbn. by repeat split.
      + rewrite (on_data_no_newline a x Hi).
        change (listening (append_buffer a x)) with (listening x). rewrite Hlis.
        assert (Hsame : on_data b (append_buffer a x) = on_data (a +:+ b) x).
        { unfold on_data. by rewrite append_buffer_twice. }
        rewrite Hsame. apply same_but_dead_buffer_refl. }
  destruct Hsim as (_ & _ & _ & _ & _ & Hsettled & _).
  pose proof (sendCommand_settles cmd (before ++ Data a :: Data b :: after)) as H1.
  pose proof (sendCommand_settles cmd (before ++ Data (a +:+ b) :: after)) as H2.
  unfold sendCommand_exchange, promise in H1, H2.
  rewrite <- app_assoc in H1, H2. cbn [app] in H1, H2.
  rewrite Hsettled in H1. congruence.
Qed.
End TransportMore.

(** ** More on the batch executor *)

Section BatchMore.
Context `{Json} `{Daemon}.

Lemma batch_loop_console_json (commands : list Request) (b : batch) :
  console (batch_loop true commands b) = console b.
Proof.
  revert b. induction commands as [|cmd commands IH]; intros b; [ reflexivity | ].
  cbn [batch_loop].
  destruct (sendCommand cmd (socket_events (sent b) cmd)) as [response|message];
    [ destruct (resp_success response); cbn [negb]; [ by rewrite IH | ] | ]; reflexivity.
Qed.

Lemma batch_loop_console_text (commands : list Request) (b : batch) :
  exists lines,
    console (batch_loop false commands b) = (console b ++ lines)%list
    /\ Forall (fun line => match line with
                           | LogJson _ _ _ _ | LogRule | LogCompleted _ _ => False
                           | _ => True
                           end) lines.
Proof.
  revert b. induction commands as [|cmd commands IH]; intros b.
  - exists []. cbn. rewrite app_nil_r. split; [ reflexivity | constructor ].
  - cbn [batch_loop].
    destruct (sendCommand cmd (socket_events (sent b) cmd)) as [response|message].
    + destruct (resp_success response); cbn [negb].
      * match goal with |- context [batch_loop false commands ?b'] =>
          destruct (IH b') as (lines & Hconsole & Hkind)
        end.
        cbn in Hconsole. eexists. rewrite Hconsole, <- app_assoc.
        split; [ reflexivity | ]. by repeat constructor.
      * eexists. cbn. split; [ reflexivity | by repeat constructor ].
    + eexists. cbn. split; [ reflexivity | by repeat constructor ].
Qed.

(** X10.  With [--json] a batch prints one line, the aggregate, and nothing
    for the single commands; without it the report ends with the rule and
    the line of the counts, after the lines of the commands. *)
Theorem batch_report (commands : list Request) :
  run_console (runBatch commands true)
  = [LogJson (run_success (runBatch commands true))
       (run_results (runBatch commands true))
       (run_completed (runBatch commands true))
       (run_total (runBatch commands true))]
  /\ exists lines,
       run_console (runBatch commands false)
       = (lines ++ [LogRule;
                    LogCompleted (run_completed (runBatch commands false))
                      (List.length commands)])%list
       /\ Forall (fun line => match line with
                              | LogJson _ _ _ _ | LogRule | LogCompleted _ _ => False
                              | _ => True
                              end) lines.
Proof.
  split.
  - unfold runBatch. cbn. by rewrite batch_loop_console_json.
  - unfold runBatch. cbn.
    match goal with |- context [batch_loop false commands ?b0] =>
      destruct (batch_loop_console_text commands b0) as (lines & Hconsole & Hkind)
    end.
    cbn in Hconsole. exists lines. by rewrite Hconsole.
Qed.
End BatchMore.

(** ** More on the encoder *)

Ltac decide_closed :=
  lazymatch goal with
  | |- ?P => exact (bool_decide_unpack P ltac:(vm_compute; exact I))
  end.

Lemma substring_length_le (a m : nat) (s : string) :
  String.length (String.substring a m s) <= m.
Proof.
  revert a m. induction s as [|c s IH]; intros a m.
  - destruct a, m; cbn; lia.
  - destruct a as [|a].
    + destruct m as [|m]; cbn; [ lia | ]. specialize (IH 0 m). lia.
    + cbn. apply IH.
Qed.

Lemma snapshot_opts_dom (rest : list string) (opts : Request) :
  dom opts ⊆ request_keys -> dom (snapshot_opts rest opts) ⊆ request_keys.
Proof.
  remember (List.length rest) as len eqn:Hlen.
  revert rest opts Hlen. induction len as [len IH] using lt_wf_ind.
  intros rest opts -> Hdom. destruct rest as [|arg rest]; [ exact Hdom | ].
  cbn [snapshot_opts].
  repeat match goal with
         | |- context [if ?b then _ else _] => destruct b
         | |- context [match ?l with [] => _ | _ :: _ => _ end] => destruct l
         end;
    try (eapply IH; [ | reflexivity | ]; [ cbn; lia | ]);
    rewrite ?dom_insert_L; try exact Hdom;
    (apply union_least; [ | exact Hdom ]);
    apply singleton_subseteq_l; decide_closed.
Qed.

Section EncoderMore.
Context `{Random}.

Lemma encode_verb_shape (id command : string) (rest : list string) (cmd : Request) :
  encode_verb id command rest = Some cmd ->
  cmd !! "id" = Some (VStr id)
  /\ (exists action, cmd !! "action" = Some (VStr action) /\ action ∈ actions)
  /\ dom cmd ⊆ request_keys.
Proof.
  unfold encode_verb.
  repeat match goal with
         | |- (if ?b then _ else _) = _ -> _ => destruct b
         end;
    intros Hcmd; try discriminate Hcmd; injection Hcmd as <-.
  all: try (split; [ lookup_fields | ];
            split; [ eexists; split; [ lookup_fields | unfold actions; repeat constructor ] | ];
            unfold base; rewrite ?dom_insert_L, dom_empty_L;
            decide_closed).
  split; [ | split ].
  - rewrite snapshot_opts_other; [ lookup_fields | ].
    intros Hk. repeat (apply elem_of_cons in Hk as [Hk | Hk]; [ discriminate | ]).
    by apply elem_of_nil in Hk.
  - exists "snapshot". split; [ | unfold actions; repeat constructor ].
    rewrite snapshot_opts_other; [ lookup_fields | ].
    intros Hk. repeat (apply elem_of_cons in Hk as [Hk | Hk]; [ discriminate | ]).
    by apply elem_of_nil in Hk.
  - apply snapshot_opts_dom. unfold base. rewrite !dom_insert_L, dom_empty_L.
    decide_closed.
Qed.

Lemma request_shape_helper (parts : list string) (n n' : nat) (cmd : Request) :
  parseCommand parts n = (Some cmd, n') ->
  n' = S n /\ cmd !! "id" = Some (VStr (js_slice 2 10 (random36 n))).
Proof.
  destruct parts as [|command rest]; [ discriminate | ].
  cbn [parseCommand]. intros Hparse. injection Hparse as Hcmd <-.
  by destruct (encode_verb_shape _ _ _ _ Hcmd) as (Hid & _).
Qed.

(** X12.  Whatever [parseCommand] returns is a request of the wire format: it
    has used one draw, its [id] is the string of at most eight characters
    cut from that draw, its [action] is one of the seventeen actions, and
    it has no property outside the thirteen the protocol names. *)
Theorem request_has_the_wire_shape (parts : list string) (n n' : nat) (cmd : Request) :
  parseCommand parts n = (Some cmd, n') ->
  n' = S n
  /\ (exists id, cmd !! "id" = Some (VStr id)
                 /\ id = js_slice 2 10 (random36 n)
                 /\ String.length id <= 8)
  /\ (exists action, cmd !! "action" = Some (VStr action) /\ action ∈ actions)
  /\ dom cmd ⊆ request_keys.
Proof.
  destruct parts as [|command rest]; [ discriminate | ].
  cbn [parseCommand]. intros Hparse. injection Hparse as Hcmd <-.
  destruct (encode_verb_shape _ _ _ _ Hcmd) as (Hid & Haction & Hdom).
  split; [ reflexivity | ]. split; [ | by split ].
  eexists. split; [ exact Hid | ]. split; [ reflexivity | ].
  apply substring_length_le.
Qed.
End EncoderMore.

Lemma append_nil_r (u : string) : u +:+ "" = u.
Proof. induction u as [|c u IH]; [ reflexivity | by rewrite append_cons, IH ]. Qed.

Lemma scan_plain (w rest cur : string) :
  all_plain w = true ->
  scan (w +:+ rest) cur false = scan rest (cur +:+ w) false.
Proof.
  revert cur. induction w as [|c w IH]; intros cur Hw.
  - change ("" +:+ rest) with rest. by rewrite append_nil_r.
  - cbn in Hw. apply andb_prop in Hw as [Hc Hw].
    rewrite append_cons. cbn [scan]. rewrite Hc, (IH _ Hw). f_equal.
    by rewrite append_assoc.
Qed.

Lemma scan_inside_quotes (s rest cur : string) :
  has_dquote s = false ->
  scan (s +:+ String dquote rest) cur true
  = scan rest (cur +:+ s +:+ String dquote "") false.
Proof.
  revert cur. induction s as [|c s IH]; intros cur Hs.
  - change ("" +:+ String dquote rest) with (String dquote rest).
    cbn [scan]. rewrite Ascii.eqb_refl. cbn [negb].
    by change (cur +:+ "" +:+ String dquote "") with (cur +:+ String dquote "").
  - cbn in Hs. apply orb_false_elim in Hs as [Hc Hs].
    rewrite append_cons. cbn [scan]. rewrite Hc. cbn [negb].
    rewrite (IH _ Hs). f_equal. by rewrite !append_assoc.
Qed.

Lemma has_dquote_app (s t : string) :
  has_dquote (s +:+ String dquote t) = true.
Proof.
  induction s as [|c s IH].
  - change ("" +:+ String dquote t) with (String dquote t).
    cbn [has_dquote]. by rewrite Ascii.eqb_refl.
  - rewrite append_cons. cbn [has_dquote]. rewrite IH.
    by destruct (Ascii.eqb c dquote).
Qed.

Lemma scan_item (it : item) (rest cur : string) :
  item_ok it = true ->
  scan (item_text it +:+ rest) cur false = scan rest (cur +:+ item_text it) false.
Proof.
  destruct it as [w | s]; cbn [item_ok item_text]; intros Hok.
  - apply andb_prop in Hok as [_ Hw]. by apply scan_plain.
  - apply negb_true_iff in Hok.
    rewrite append_cons, append_assoc, append_cons. cbn [scan].
    assert (Hq : is_plain dquote = false) by reflexivity.
    rewrite Hq, Ascii.eqb_refl, has_dquote_app. cbn [andb].
    change (String dquote "" +:+ rest) with (String dquote rest).
    rewrite (scan_inside_quotes s rest _ Hok). f_equal.
    by rewrite !append_assoc.
Qed.

Lemma item_text_not_empty (it : item) :
  item_ok it = true -> exists c s, item_text it = String c s.
Proof.
  destruct it as [[|c w] | s]; cbn; try discriminate; intros _; by eexists _, _.
Qed.

Lemma drop_last_dquote_plain (w : string) :
  all_plain w = true -> drop_last_dquote w = w.
Proof.
  induction w as [|c w IH]; [ reflexivity | ].
  cbn [all_plain]. intros Hw. apply andb_prop in Hw as [Hc Hw].
  cbn [drop_last_dquote]. destruct w as [|c' w'].
  - unfold is_plain in Hc. apply andb_prop in Hc as [_ Hc].
    apply negb_true_iff in Hc. by rewrite Hc.
  - by rewrite (IH Hw).
Qed.

Lemma drop_last_dquote_closing (s : string) :
  has_dquote s = false -> drop_last_dquote (s +:+ String dquote "") = s.
Proof.
  induction s as [|c s IH]; [ reflexivity | ].
  cbn [has_dquote]. intros Hs. apply orb_false_elim in Hs as [Hc Hs].
  rewrite append_cons. cbn [drop_last_dquote]. rewrite (IH Hs).
  by destruct (s +:+ String dquote "") eqn:Happ; [ destruct s; discriminate Happ | ].
Qed.

Lemma strip_quotes_item (it : item) :
  item_ok it = true -> strip_quotes (item_text it) = item_token it.
Proof.
  destruct it as [w | s]; cbn [item_ok item_text item_token]; intros Hok.
  - apply andb_prop in Hok as [Hne Hw]. destruct w as [|c w]; [ discriminate | ].
    unfold strip_quotes.
    assert (Hc : Ascii.eqb c dquote = false).
    { cbn in Hw. apply andb_prop in Hw as [Hc _]. unfold is_plain in Hc.
      apply andb_prop in Hc as [_ Hc]. by apply negb_true_iff in Hc. }
    rewrite Hc. by apply drop_last_dquote_plain.
  - apply negb_true_iff in Hok. unfold strip_quotes. rewrite Ascii.eqb_refl.
    by apply drop_last_dquote_closing.
Qed.

Lemma scan_blank (s : string) : blank s = true -> scan s "" false = [].
Proof.
  induction s as [|c s IH]; [ reflexivity | ].
  cbn [blank]. intros Hs. apply andb_prop in Hs as [Hc Hs].
  cbn [scan]. unfold is_plain. rewrite Hc. cbn [negb andb].
  assert (Hq : Ascii.eqb c dquote = false).
  { destruct c as [[] [] [] [] [] [] [] []]; try reflexivity; discriminate Hc. }
  rewrite Hq. cbn [andb flush]. by apply IH.
Qed.

Lemma scan_command_line (items : list item) :
  Forall (fun it => item_ok it = true) items ->
  scan (command_line items) "" false = map item_text items.
Proof.
  induction items as [|it items IH]; intros Hok; [ reflexivity | ].
  apply Forall_cons in Hok as [Hit Hitems].
  destruct (item_text_not_empty it Hit) as (c & s & Htext).
  destruct items as [|it' items].
  - cbn [command_line map].
    rewrite <- (append_nil_r (item_text it)) at 1.
    rewrite (scan_item it "" "" Hit). cbn [scan].
    change ("" +:+ item_text it) with (item_text it). by rewrite Htext.
  - change (command_line (it :: it' :: items))
      with (item_text it +:+ String " " (command_line (it' :: items))).
    rewrite (scan_item it _ "" Hit). cbn [append scan].
    assert (Hsp : is_plain " " = false) by reflexivity.
    assert (Hsq : Ascii.eqb " " dquote = false) by reflexivity.
    rewrite Hsp, Hsq. cbn [andb].
    change ("" +:+ item_text it) with (item_text it).
    rewrite (IH Hitems), Htext. cbn [flush map]. by rewrite Htext.
Qed.

(** X13.  Tokenization reads back what was written: the words and quoted texts
    of a command line, a space between them, come out as one token each, a
    quoted text whole and without its quotes. *)
Theorem tokens_of_command_line (items : list item) :
  Forall (fun it => item_ok it = true) items ->
  cleanParts (command_line items) = map item_token items.
Proof.
  intros Hok. unfold cleanParts, match_tokens. rewrite (scan_command_line items Hok).
  rewrite map_map. apply map_ext_in. intros it Hin.
  apply strip_quotes_item. rewrite Forall_forall in Hok. by apply Hok, list_elem_of_In.
Qed.

Section BatchEncoderMore.
Context `{Random}.

Lemma parseCommand_counter (parts : list string) (n : nat) :
  (parseCommand parts n).2 = match parts with [] => n | _ :: _ => S n end.
Proof. by destruct parts. Qed.

Lemma parseBatchCommands_counter_cons (arg : string) (args : list string) (n : nat) :
  (parseBatchCommands (arg :: args) n).2
  = (parseBatchCommands args (parseCommand (cleanParts arg) n).2).2.
Proof.
  unfold parseBatchCommands. cbn [fold_left]. unfold batch_step at 2.
  destruct (parseCommand (cleanParts arg) n) as [[cmd|] n']; cbn [fst snd];
    [ by rewrite batch_fold_acc | reflexivity ].
Qed.

(** X14.  A batch of two lists of command strings is the batch of the first
    followed by the batch of the second, the second drawing its
    identifiers where the first stopped. *)
Theorem batch_of_two_lists (args more : list string) (n : nat) :
  parseBatchCommands (args ++ more) n
  = (((parseBatchCommands args n).1
      ++ (parseBatchCommands more (parseBatchCommands args n).2).1)%list,
     (parseBatchCommands more (parseBatchCommands args n).2).2).
Proof.
  unfold parseBatchCommands. rewrite fold_left_app.
  destruct (fold_left batch_step args ([], n)) as [commands n'] eqn:Hfirst.
  cbn [fst snd]. by rewrite batch_fold_acc.
Qed.

(** X15.  A command string of white space only leaves no trace in a batch: no
    request, and no draw of the random source. *)
Theorem blank_command_leaves_no_trace
    (args more : list string) (arg : string) (n : nat) :
  blank arg = true ->
  parseBatchCommands (args ++ arg :: more) n = parseBatchCommands (args ++ more) n.
Proof.
  intros Hblank. unfold parseBatchCommands. rewrite !fold_left_app. cbn [fold_left].
  f_equal. destruct (fold_left batch_step args ([], n)) as [commands n'].
  unfold batch_step, cleanParts, match_tokens. by rewrite (scan_blank arg Hblank).
Qed.

(** X16.  Every request of a batch has an identifier of its own draw: the
    identifiers are cut from draws of strictly increasing numbers, all made
    during this batch. *)
Theorem batch_ids_from_distinct_draws (args : list string) (n : nat) :
  exists draws : list nat,
    ids_of (parseBatchCommands args n).1
    = map (fun k => Some (VStr (js_slice 2 10 (random36 k)))) draws
    /\ StronglySorted lt draws
    /\ Forall (fun k => n <= k < (parseBatchCommands args n).2) draws
    /\ n <= (parseBatchCommands args n).2.
Proof.
  revert n. induction args as [|arg args IH]; intros n.
  - exists []. cbn. repeat split; try constructor.
  - rewrite parseBatchCommands_cons, parseBatchCommands_counter_cons.
    destruct (IH (parseCommand (cleanParts arg) n).2) as (draws & Hids & Hsorted & Hrange & Hle).
    pose proof (parseCommand_counter (cleanParts arg) n) as Hcount.
    destruct (parseCommand (cleanParts arg) n) as [[cmd|] n'] eqn:Hparse; cbn [fst snd] in *.
    + destruct (request_shape_helper _ _ _ _ Hparse) as (-> & Hid).
      exists (n :: draws). cbn [ids_of map]. rewrite Hid. fold (ids_of (parseBatchCommands args (S n)).1).
      rewrite Hids. split; [ reflexivity | ].
      split; [ constructor; [ exact Hsorted | ] | ].
      * eapply Forall_impl; [ exact Hrange | ]. cbn. intros k Hk. lia.
      * split; [ constructor; [ lia | ] | lia ].
        eapply Forall_impl; [ exact Hrange | ]. cbn. intros k Hk. lia.
    + exists draws. split; [ exact Hids | ]. split; [ exact Hsorted | ].
      assert (Hn : n <= n') by (destruct (cleanParts arg); subst; lia).
      split; [ | lia ].
      eapply Forall_impl; [ exact Hrange | ]. cbn. intros k Hk. lia.
Qed.
End BatchEncoderMore.

(** ** More on the daemon supervisor *)

Section SupervisorMore.
Context `{Host}.

Lemma poll_found (timeline : nat -> world) (k i j : nat) :
  poll timeline k i = Some j ->
  i <= j < i + k
  /\ existsSync (timeline j) SOCKET_PATH = true
  /\ forall m, i <= m < j -> existsSync (timeline m) SOCKET_PATH = false.
Proof.
  revert i. induction k as [|k IH]; intros i; [ discriminate | ].
  cbn [poll]. destruct (existsSync (timeline i) SOCKET_PATH) eqn:Hi.
  - intros Hj. injection Hj as <-.
    split; [ lia | ]. split; [ exact Hi | ]. intros m Hm. lia.
  - intros Hj. destruct (IH _ Hj) as (Hrange & Hfound & Hbefore).
    split; [ lia | ]. split; [ exact Hfound | ].
    intros m Hm. destruct (decide (m = i)) as [-> | Hne]; [ exact Hi | ].
    apply Hbefore. lia.
Qed.

Lemma poll_not_found (timeline : nat -> world) (k i : nat) :
  poll timeline k i = None ->
  forall m, i <= m < i + k -> existsSync (timeline m) SOCKET_PATH = false.
Proof.
  revert i. induction k as [|k IH]; intros i; [ intros _ m Hm; lia | ].
  cbn [poll]. destruct (existsSync (timeline i) SOCKET_PATH) eqn:Hi; [ discriminate | ].
  intros Hnone m Hm. destruct (decide (m = i)) as [-> | Hne]; [ exact Hi | ].
  apply (IH _ Hnone). lia.
Qed.

(** X18.  The script search, when the early return is not taken: the daemon
    spawned is the first candidate that exists, for the session of the
    client; when none exists nothing is spawned, and the error names the
    last candidate only. *)
Theorem daemon_script_is_first_candidate (timeline : nat -> world) :
  isDaemonRunning (timeline 0) && existsSync (timeline 0) SOCKET_PATH = false ->
  match List.find (existsSync (timeline 0)) daemon_candidates with
  | Some script =>
      (ensureDaemon timeline).2 = [(script, SESSION)]
      /\ exists i, (ensureDaemon timeline).1 = Started i
                   \/ (ensureDaemon timeline).1 = FailedToStart
  | None =>
      ensureDaemon timeline = (DaemonNotFound (path_join cwd "dist/daemon.js"), [])
  end.
Proof.
  intros Hnot. unfold ensureDaemon. rewrite Hnot. unfold daemon_candidates.
  cbn [List.find].
  destruct (existsSync (timeline 0) (path_join scriptDir "daemon.js")) eqn:H1; cbn [negb].
  - repeat (rewrite H1; cbn [negb]). destruct (poll timeline 50 0) as [i|]; cbn;
      [ split; [ reflexivity | exists i; tauto ]
      | split; [ reflexivity | exists 0; tauto ] ].
  - destruct (existsSync (timeline 0) (path_join scriptDir "../dist/daemon.js")) eqn:H2;
      cbn [negb].
    + repeat (rewrite H2; cbn [negb]). destruct (poll timeline 50 0) as [i|]; cbn;
        [ split; [ reflexivity | exists i; tauto ]
        | split; [ reflexivity | exists 0; tauto ] ].
    + destruct (existsSync (timeline 0) (path_join cwd "dist/daemon.js")) eqn:H3;
        cbn [negb]; [ | reflexivity ].
      repeat (rewrite H3; cbn [negb]).
      destruct (poll timeline 50 0) as [i|]; cbn;
        [ split; [ reflexivity | exists i; tauto ]
        | split; [ reflexivity | exists 0; tauto ] ].
Qed.

(** X19.  The wait for the socket.  [ensureDaemon] that spawned a daemon
    returns at the first of its fifty polls that finds the socket, having
    spawned one daemon, whose script is a candidate that exists. *)
Theorem started_at_first_sight_of_socket
    (timeline : nat -> world) (i : nat) (spawned : list (string * string)) :
  ensureDaemon timeline = (Started i, spawned) ->
  i < 50
  /\ existsSync (timeline i) SOCKET_PATH = true
  /\ (forall j, j < i -> existsSync (timeline j) SOCKET_PATH = false)
  /\ exists script, spawned = [(script, SESSION)] /\ script ∈ daemon_candidates
                    /\ existsSync (timeline 0) script = true.
Proof.
  unfold ensureDaemon, daemon_candidates.
  destruct (isDaemonRunning (timeline 0) && existsSync (timeline 0) SOCKET_PATH);
    [ discriminate | ].
  destruct (existsSync (timeline 0) (path_join scriptDir "daemon.js")) eqn:H1; cbn [negb];
    [ repeat (rewrite H1; cbn [negb])
    | destruct (existsSync (timeline 0) (path_join scriptDir "../dist/daemon.js")) eqn:H2;
      cbn [negb];
      [ repeat (rewrite H2; cbn [negb])
      | destruct (existsSync (timeline 0) (path_join cwd "dist/daemon.js")) eqn:H3;
        repeat (rewrite H3; cbn [negb]) ] ];
    cbn [negb]; try discriminate;
    (destruct (poll timeline 50 0) as [j|] eqn:Hpoll; [ | discriminate ]);
    intros Heq; injection Heq as -> <-;
    destruct (poll_found _ _ _ _ Hpoll) as (Hrange & Hfound & Hbefore);
    (split; [ lia | ]); (split; [ exact Hfound | ]);
    (split; [ intros m Hm; apply Hbefore; lia | ]);
    eexists; (split; [ reflexivity | ]); (split; [ | eassumption ]);
    repeat constructor.
Qed.

(** X20.  When [ensureDaemon] fails to start the daemon, none of its fifty
    polls found the socket, and one daemon was spawned all the same. *)
Theorem fails_when_no_poll_finds_socket (timeline : nat -> world) :
  (ensureDaemon timeline).1 = FailedToStart ->
  (forall j, j < 50 -> existsSync (timeline j) SOCKET_PATH = false)
  /\ List.length (ensureDaemon timeline).2 = 1.
Proof.
  unfold ensureDaemon.
  repeat match goal with
         | |- context [if ?b then _ else _] => destruct b
         end; cbn [fst]; try discriminate;
    (destruct (poll timeline 50 0) as [j|] eqn:Hpoll; [ discriminate | ]);
    intros _; (split; [ | reflexivity ]);
    intros m Hm; apply (poll_not_found _ _ _ Hpoll); lia.
Qed.

(** X21.  A socket left behind by a dead daemon is taken for the socket of the
    new one: [ensureDaemon] spawns a daemon and returns at its first poll,
    without waiting for the daemon it spawned. *)
Theorem stale_socket_ends_the_wait
    (timeline : nat -> world) (script : string) :
  isDaemonRunning (timeline 0) = false ->
  existsSync (timeline 0) SOCKET_PATH = true ->
  List.find (existsSync (timeline 0)) daemon_candidates = Some script ->
  ensureDaemon timeline = (Started 0, [(script, SESSION)]).
Proof.
  intros Hdead Hsocket. unfold ensureDaemon, daemon_candidates. rewrite Hdead.
  cbn [andb List.find poll]. rewrite Hsocket.
  destruct (existsSync (timeline 0) (path_join scriptDir "daemon.js")) eqn:H1; cbn [negb].
  - repeat (rewrite H1; cbn [negb]). by intros [= <-].
  - destruct (existsSync (timeline 0) (path_join scriptDir "../dist/daemon.js")) eqn:H2;
      cbn [negb].
    + repeat (rewrite H2; cbn [negb]). by intros [= <-].
    + destruct (existsSync (timeline 0) (path_join cwd "dist/daemon.js")) eqn:H3;
        cbn [negb]; [ repeat (rewrite H3; cbn [negb]); by intros [= <-] | discriminate ].
Qed.
End SupervisorMore.

(** ** The entry point *)

Lemma includes_app (a b : list string) (x : string) :
  includes (a ++ b) x = includes a x || includes b x.
Proof. unfold includes. apply existsb_app. Qed.

Lemma unknown_option_not_included (a x : string) :
  unknown_option a = true -> x ∈ ["--json"; "--help"; "-h"] -> String.eqb x a = false.
Proof.
  unfold unknown_option. intros Ha Hx.
  apply andb_prop in Ha as [Ha Hhelp]. apply andb_prop in Ha as [Hdash Hjson].
  apply negb_true_iff in Hhelp, Hjson.
  repeat (apply elem_of_cons in Hx as [-> | Hx]);
    [ by rewrite String.eqb_sym | by rewrite String.eqb_sym | | by apply elem_of_nil in Hx ].
  apply eqb_of_neq. intros <-. discriminate Hdash.
Qed.

Section MainFacts.
Context `{Host} `{Random} `{Json} `{Daemon}.

(** X22.  Help wins.  Without an argument that is not an option, or with
    [--help] or [-h] anywhere, [main] prints the help and exits with 0,
    whatever else the command line asks for; no daemon is looked for or
    spawned and nothing is sent. *)
Theorem help_wins (args : list string) (n : nat) (timeline : nat -> world) :
  cleanArgs args = [] \/ "--help" ∈ args \/ "-h" ∈ args ->
  main args n timeline
  = {| main_exit := 0; main_out := [OutHelp]; main_spawned := []; main_sent := [] |}.
Proof.
  assert (Hin : forall x, x ∈ args -> includes args x = true).
  { intros x Hx. unfold includes. apply existsb_exists. exists x.
    split; [ by apply list_elem_of_In | apply String.eqb_refl ]. }
  intros [Hclean | [Hhelp | Hh]]; unfold main.
  - by rewrite Hclean.
  - rewrite (Hin _ Hhelp). by rewrite orb_true_r.
  - rewrite (Hin _ Hh). by rewrite orb_true_r.
Qed.

(** X23.  An option [main] does not know is dropped before the command is
    encoded, wherever it stands: the run is the run without it.  So the
    long options of [snapshot] never reach the encoder from the command
    line of a single command. *)
Theorem unknown_options_are_dropped
    (before after : list string) (a : string) (n : nat) (timeline : nat -> world) :
  unknown_option a = true ->
  main (before ++ a :: after) n timeline = main (before ++ after) n timeline.
Proof.
  intros Ha.
  assert (Hclean : cleanArgs (before ++ a :: after) = cleanArgs (before ++ after)).
  { unfold cleanArgs. rewrite !List.filter_app. cbn [List.filter].
    unfold unknown_option in Ha. apply andb_prop in Ha as [Ha _].
    apply andb_prop in Ha as [-> _]. reflexivity. }
  assert (Hinc : forall x, x ∈ ["--json"; "--help"; "-h"] ->
                 includes (before ++ a :: after) x = includes (before ++ after) x).
  { intros x Hx. rewrite !includes_app. unfold includes at 2. cbn [existsb].
    by rewrite (unknown_option_not_included a x Ha Hx). }
  unfold main. rewrite Hclean, !Hinc by repeat constructor. reflexivity.
Qed.

Lemma batch_of_unsupported (strings : list string) (n : nat) :
  Forall (fun s => unsupported (cleanParts s)) strings ->
  (parseBatchCommands strings n).1 = [].
Proof.
  revert n. induction strings as [|s strings IH]; intros n Hall; [ reflexivity | ].
  apply Forall_cons in Hall as [Hs Hall].
  rewrite parseBatchCommands_cons, (parseCommand_unsupported _ n Hs). by apply IH.
Qed.

(** X24.  An unknown command stops before the daemon: [main] reports the first
    argument, exits with 1, and no daemon is looked for or spawned. *)
Theorem unknown_command_stops_before_daemon
    (args : list string) (n : nat) (timeline : nat -> world) :
  includes args "--help" = false -> includes args "-h" = false ->
  cleanArgs args <> [] ->
  slot_is (cleanArgs args !! 0) "batch" = false ->
  unsupported (cleanArgs args) ->
  main args n timeline
  = {| main_exit := 1; main_out := [ErrUnknownCommand (cleanArgs args !! 0)];
       main_spawned := []; main_sent := [] |}.
Proof.
  intros Hhelp Hh Hne Hbatch Hun. unfold main. rewrite Hhelp, Hh, Hbatch.
  destruct (cleanArgs args) as [|verb rest] eqn:Hclean; [ congruence | ].
  cbn [List.length Nat.eqb orb]. by rewrite (parseCommand_unsupported _ n Hun).
Qed.

(** X25.  A batch without a request stops before the daemon too: with no
    command string, or with command strings that all fail to encode,
    [main] exits with 1, and no daemon is looked for or spawned. *)
Theorem empty_batch_stops_before_daemon
    (args strings : list string) (n : nat) (timeline : nat -> world) :
  includes args "--help" = false -> includes args "-h" = false ->
  cleanArgs args = "batch" :: strings ->
  Forall (fun s => unsupported (cleanParts s)) strings ->
  main args n timeline
  = {| main_exit := 1;
       main_out := match strings with
                   | [] => [ErrBatchNeedsCommand; OutExample]
                   | _ :: _ => [ErrNoValidCommands]
                   end;
       main_spawned := []; main_sent := [] |}.
Proof.
  intros Hhelp Hh Hclean Hall. unfold main. rewrite Hhelp, Hh, Hclean.
  cbn [List.length Nat.eqb orb lookup list_lookup slot_is tail].
  rewrite String.eqb_refl. destruct strings as [|s strings]; [ reflexivity | ].
  cbn [List.length Nat.eqb]. by rewrite (batch_of_unsupported _ n Hall).
Qed.


(** X27.  Without a daemon nothing is sent: when the daemon script is not
    found, or the daemon does not come up, [main] hands no request to
    [sendCommand], and only the help exits with 0. *)
Theorem nothing_is_sent_without_daemon
    (args : list string) (n : nat) (timeline : nat -> world) :
  (exists looked, (ensureDaemon timeline).1 = DaemonNotFound looked)
  \/ (ensureDaemon timeline).1 = FailedToStart ->
  main_sent (main args n timeline) = []
  /\ (main_exit (main args n timeline) = 0%Z ->
      main_out (main args n timeline) = [OutHelp])
  /\ (main_exit (main args n timeline) = 0%Z
      \/ main_exit (main args n timeline) = 1%Z).
Proof.
  intros Hfail. unfold main, with_daemon.
  destruct (ensureDaemon timeline) as [e spawned]. cbn [fst] in Hfail.
  assert (He : match e with Ready | Started _ => False | _ => True end).
  { destruct Hfail as [[looked ->] | ->]; exact I. }
  repeat match goal with
         | |- context [if ?b then _ else _] => destruct b
         | |- context [match ?o with Some _ => _ | None => _ end] => destruct o
         end;
    destruct e; try contradiction; cbn;
    (split; [ reflexivity | ]); (split; [ try discriminate; reflexivity | ]);
    auto.
Qed.
End MainFacts.

(** ** More on [snapshot] and on the exit of a batch *)

Lemma snapshot_opts_switches (rest : list string) (opts : Request) :
  Forall (fun a => takes_value a = false) rest ->
  snapshot_opts rest opts !! "interactive"
  = (if existsb is_interactive rest then Some (VBool true) else opts !! "interactive")
  /\ snapshot_opts rest opts !! "compact"
     = (if existsb is_compact rest then Some (VBool true) else opts !! "compact")
  /\ snapshot_opts rest opts !! "maxDepth" = opts !! "maxDepth"
  /\ snapshot_opts rest opts !! "selector" = opts !! "selector".
Proof.
  revert opts. induction rest as [|arg rest IH]; intros opts Hrest; [ by repeat split | ].
  apply Forall_cons in Hrest as [Harg Hrest].
  unfold takes_value in Harg. apply orb_false_elim in Harg as [Hdepth Hselector].
  cbn [snapshot_opts existsb]. unfold is_interactive at 1, is_compact at 1.
  rewrite Hdepth, Hselector.
  destruct (String.eqb arg "-i" || String.eqb arg "--interactive") eqn:Hi.
  - assert (Hc : String.eqb arg "-c" || String.eqb arg "--compact" = false).
    { apply orb_prop in Hi as [Hi | Hi]; apply String.eqb_eq in Hi; by subst. }
    rewrite Hc. cbn [orb].
    destruct (IH (<["interactive" := VBool true]> opts) Hrest) as (-> & -> & -> & ->).
    rewrite lookup_insert_eq, !lookup_insert_ne by discriminate.
    repeat split. by destruct (existsb is_interactive rest).
  - destruct (String.eqb arg "-c" || String.eqb arg "--compact") eqn:Hc; cbn [orb].
    + destruct (IH (<["compact" := VBool true]> opts) Hrest) as (-> & -> & -> & ->).
      rewrite lookup_insert_eq, !lookup_insert_ne by discriminate.
      repeat split. by destruct (existsb is_compact rest).
    + by destruct (IH opts Hrest) as (-> & -> & -> & ->).
Qed.

Section SnapshotFacts.
Context `{Random}.

(** X17.  The switches of [snapshot].  When no argument is an option that
    takes a value, the request has [interactive: true] exactly when -i or
    --interactive is among the arguments and [compact: true] exactly when
    -c or --compact is, in any order and any number of times; every other
    argument is skipped, and there is neither a depth nor a selector. *)
Theorem snapshot_switches (rest : list string) (n : nat) :
  Forall (fun a => takes_value a = false) rest ->
  exists cmd : Request,
    parseCommand ("snapshot" :: rest) n = (Some cmd, S n)
    /\ cmd !! "action" = Some (VStr "snapshot")
    /\ cmd !! "interactive"
       = (if existsb is_interactive rest then Some (VBool true) else None)
    /\ cmd !! "compact" = (if existsb is_compact rest then Some (VBool true) else None)
    /\ cmd !! "maxDepth" = None
    /\ cmd !! "selector" = None.
Proof.
  intros Hrest. eexists. split; [ reflexivity | ].
  destruct (snapshot_opts_switches rest (base (js_slice 2 10 (random36 n)) "snapshot") Hrest)
    as (Hi & Hc & Hd & Hs).
  rewrite Hi, Hc, Hd, Hs.
  split; [ | repeat split; lookup_fields ].
  rewrite snapshot_opts_other; [ lookup_fields | ].
  intros Hk. repeat (apply elem_of_cons in Hk as [Hk | Hk]; [ discriminate | ]).
  by apply elem_of_nil in Hk.
Qed.
End SnapshotFacts.

Lemma snapshot_switches_witness :
  Forall (fun a => takes_value a = false) ["-c"; "extra"; "--interactive"; "-c"]
  /\ exists cmd : Request,
       @parseCommand sample_random ["snapshot"; "-c"; "extra"; "--interactive"; "-c"] 0
       = (Some cmd, 1)
       /\ cmd !! "interactive" = Some (VBool true)
       /\ cmd !! "compact" = Some (VBool true).
Proof.
  assert (Hrest : Forall (fun a => takes_value a = false)
                    ["-c"; "extra"; "--interactive"; "-c"]) by (by repeat constructor).
  split; [ exact Hrest | ].
  destruct (@snapshot_switches sample_random _ 0 Hrest) as (cmd & Hcmd & _ & Hi & Hc & _).
  exists cmd. by repeat split.
Defined.

Section BatchExit.
Context `{Json} `{Daemon}.


End BatchExit.

(** ** The properties above on the sample runtime *)

Lemma outcome_is_final_witness :
  resolved (@run sample_json (request "a" "snapshot")
              [Connect; Data (ok_line "a" +:+ String newline "")]) = true
  /\ @sendCommand sample_json (request "a" "snapshot")
       ([Connect; Data (ok_line "a" +:+ String newline "")]
        ++ [Data (failed_line "a" +:+ String newline ""); SocketError "ECONNRESET"; Close])
     = Resolved (ok_response "a").
Proof.
  split; [ reflexivity | ].
  rewrite (proj2 (@outcome_is_final sample_json (request "a" "snapshot")
                    [Connect; Data (ok_line "a" +:+ String newline "")]
                    [Data (failed_line "a" +:+ String newline "");
                     SocketError "ECONNRESET"; Close] eq_refl)).
  reflexivity.
Defined.

Lemma first_line_decides_witness :
  resolved (@run sample_json (request "a" "snapshot") [Connect; Data "{oops"]) = false
  /\ @sendCommand sample_json (request "a" "snapshot")
       ([Connect; Data "{oops"]
        ++ Data ("}" +:+ String newline (ok_line "a" +:+ String newline "")) :: [Close])
     = Rejected "Invalid JSON response".
Proof.
  split; [ reflexivity | ].
  exact (proj1 (@first_line_decides sample_json (request "a" "snapshot")
                  [Connect; Data "{oops"] [Close]
                  ("}" +:+ String newline (ok_line "a" +:+ String newline "")) 6
                  eq_refl eq_refl)).
Defined.

Lemma socket_error_rejects_pending_witness :
  resolved (@run sample_json (request "a" "snapshot") []) = false
  /\ @sendCommand sample_json (request "a" "snapshot")
       ([] ++ SocketError "connect ENOENT /tmp/agent-browser-default.sock" :: [Close])
     = Rejected "connect ENOENT /tmp/agent-browser-default.sock".
Proof.
  split; [ reflexivity | ].
  exact (proj1 (@socket_error_rejects_pending sample_json (request "a" "snapshot")
                  [] [Close] "connect ENOENT /tmp/agent-browser-default.sock" eq_refl)).
Defined.

Lemma silent_exchange_times_out_witness :
  @sendCommand sample_json (request "a" "snapshot") [Connect; Close] = Rejected "Timeout"
  /\ destroyed (@sendCommand_exchange sample_json (request "a" "snapshot") [Connect; Close])
     = 1.
Proof.
  assert (Hsilent : Forall (fun ev => ev = Connect \/ ev = Close) [Connect; Close])
    by (repeat constructor; auto).
  destruct (@silent_exchange_times_out sample_json (request "a" "snapshot")
              [Connect; Close] Hsilent) as (Hsend & _ & Hdestroyed & _).
  split; [ exact Hsend | exact Hdestroyed ].
Defined.

Lemma request_has_the_wire_shape_witness :
  @parseCommand sample_random ["snapshot"; "-i"; "-d"; "3"] 1
  = (Some (<["maxDepth" := VNum (Fin 3)]>
             (<["interactive" := VBool true]> (base "9x1" "snapshot"))), 2)
  /\ dom (<["maxDepth" := VNum (Fin 3)]>
            (<["interactive" := VBool true]> (base "9x1" "snapshot")))
     ⊆ request_keys.
Proof.
  assert (Hparse : @parseCommand sample_random ["snapshot"; "-i"; "-d"; "3"] 1
                   = (Some (<["maxDepth" := VNum (Fin 3)]>
                              (<["interactive" := VBool true]> (base "9x1" "snapshot"))), 2))
    by reflexivity.
  split; [ exact Hparse | ].
  exact (proj2 (proj2 (proj2 (@request_has_the_wire_shape sample_random _ _ _ _ Hparse)))).
Defined.

(** The command line of the specification: fill, a quoted selector and a
    quoted value. *)
Lemma tokens_of_command_line_witness :
  command_line [Word "fill"; Quoted "a b"; Quoted "c d"]
  = "fill " +:+ q +:+ "a b" +:+ q +:+ " " +:+ q +:+ "c d" +:+ q
  /\ cleanParts (command_line [Word "fill"; Quoted "a b"; Quoted "c d"])
     = ["fill"; "a b"; "c d"].
Proof.
  split; [ reflexivity | ].
  apply (tokens_of_command_line [Word "fill"; Quoted "a b"; Quoted "c d"]).
  repeat constructor.
Defined.

Lemma blank_command_leaves_no_trace_witness :
  blank "   " = true
  /\ @parseBatchCommands sample_random (["open example.com"] ++ "   " :: ["get title"]) 0
     = @parseBatchCommands sample_random (["open example.com"] ++ ["get title"]) 0.
Proof.
  split; [ reflexivity | ].
  exact (@blank_command_leaves_no_trace sample_random
           ["open example.com"] ["get title"] "   " 0 eq_refl).
Defined.

Lemma daemon_script_is_first_candidate_witness :
  List.find (@existsSync stale_world) (@daemon_candidates sample_host)
  = Some "/opt/agent-browser/dist/daemon.js"
  /\ (@ensureDaemon sample_host (fun _ => stale_world)).2
     = [("/opt/agent-browser/dist/daemon.js", "default")]
  /\ @ensureDaemon sample_host (fun _ => bare_world)
     = (DaemonNotFound "/home/user/dist/daemon.js", []).
Proof.
  split; [ reflexivity | ].
  split.
  - exact (proj1 (@daemon_script_is_first_candidate sample_host (fun _ => stale_world)
                    eq_refl)).
  - exact (@daemon_script_is_first_candidate sample_host (fun _ => bare_world) eq_refl).
Defined.

Lemma started_at_first_sight_of_socket_witness :
  @ensureDaemon sample_host booting_timeline
  = (Started 3, [("/opt/agent-browser/dist/daemon.js", "default")])
  /\ @existsSync (booting_timeline 3) (@SOCKET_PATH sample_host) = true
  /\ @existsSync (booting_timeline 2) (@SOCKET_PATH sample_host) = false.
Proof.
  assert (Hrun : @ensureDaemon sample_host booting_timeline
                 = (Started 3, [("/opt/agent-browser/dist/daemon.js", "default")]))
    by (vm_compute; reflexivity).
  split; [ exact Hrun | ].
  destruct (@started_at_first_sight_of_socket sample_host booting_timeline 3 _ Hrun)
    as (_ & Hthere & Hbefore & _).
  split; [ exact Hthere | apply Hbefore; lia ].
Defined.

Lemma fails_when_no_poll_finds_socket_witness :
  @ensureDaemon sample_host (fun _ => down_world)
  = (FailedToStart, [("/opt/agent-browser/dist/daemon.js", "default")])
  /\ @existsSync down_world (@SOCKET_PATH sample_host) = false.
Proof.
  assert (Hrun : @ensureDaemon sample_host (fun _ => down_world)
                 = (FailedToStart, [("/opt/agent-browser/dist/daemon.js", "default")]))
    by (vm_compute; reflexivity).
  split; [ exact Hrun | ].
  apply (proj1 (@fails_when_no_poll_finds_socket sample_host (fun _ => down_world)
                  (f_equal fst Hrun)) 49).
  lia.
Defined.

Lemma stale_socket_ends_the_wait_witness :
  @isDaemonRunning sample_host stale_world = false
  /\ @ensureDaemon sample_host (fun _ => stale_world)
     = (Started 0, [("/opt/agent-browser/dist/daemon.js", "default")]).
Proof.
  split; [ reflexivity | ].
  exact (@stale_socket_ends_the_wait sample_host (fun _ => stale_world)
           "/opt/agent-browser/dist/daemon.js" eq_refl eq_refl eq_refl).
Defined.

Lemma help_wins_witness :
  main_exit (@main sample_host sample_random sample_json sample_daemon
               ["open"; "example.com"; "-h"] 0 (fun _ => bare_world)) = 0%Z
  /\ main_out (@main sample_host sample_random sample_json sample_daemon
                 ["open"; "example.com"; "-h"] 0 (fun _ => bare_world)) = [OutHelp].
Proof.
  rewrite (@help_wins sample_host sample_random sample_json sample_daemon
             ["open"; "example.com"; "-h"] 0 (fun _ => bare_world));
    [ by split | ].
  right. right. repeat constructor.
Defined.

Lemma unknown_options_are_dropped_witness :
  unknown_option "--interactive" = true
  /\ main_sent (@main sample_host sample_random sample_json sample_daemon
                  (["snapshot"] ++ "--interactive" :: []) 0 (fun _ => live_world))
     = [base "4fzyo82m" "snapshot"].
Proof.
  split; [ reflexivity | ].
  rewrite (@unknown_options_are_dropped sample_host sample_random sample_json
             sample_daemon ["snapshot"] [] "--interactive" 0 (fun _ => live_world)
             eq_refl).
  reflexivity.
Defined.

Lemma unknown_command_stops_before_daemon_witness :
  unsupported ["frobnicate"; "now"]
  /\ @main sample_host sample_random sample_json sample_daemon
       ["frobnicate"; "now"; "--json"] 0 (fun _ => stale_world)
     = {| main_exit := 1; main_out := [ErrUnknownCommand (Some "frobnicate")];
          main_spawned := []; main_sent := [] |}.
Proof.
  assert (Hun : unsupported ["frobnicate"; "now"]).
  { left. unfold supported_verbs. intros Hin.
    repeat (apply elem_of_cons in Hin as [Hin | Hin]; [ discriminate | ]).
    by apply elem_of_nil in Hin. }
  split; [ exact Hun | ].
  exact (@unknown_command_stops_before_daemon sample_host sample_random sample_json
           sample_daemon ["frobnicate"; "now"; "--json"] 0 (fun _ => stale_world)
           eq_refl eq_refl ltac:(discriminate) eq_refl Hun).
Defined.

Lemma empty_batch_stops_before_daemon_witness :
  @main sample_host sample_random sample_json sample_daemon
    ["batch"; "frobnicate now"; "get html"] 0 (fun _ => stale_world)
  = {| main_exit := 1; main_out := [ErrNoValidCommands];
       main_spawned := []; main_sent := [] |}.
Proof.
  apply (@empty_batch_stops_before_daemon sample_host sample_random sample_json
           sample_daemon ["batch"; "frobnicate now"; "get html"]
           ["frobnicate now"; "get html"] 0 (fun _ => stale_world) eq_refl eq_refl eq_refl).
  constructor; [ | constructor; [ | constructor ] ].
  - left. unfold supported_verbs. intros Hin.
    repeat (apply elem_of_cons in Hin as [Hin | Hin]; [ discriminate | ]).
    by apply elem_of_nil in Hin.
  - right. split; [ reflexivity | ]. intros Hin.
    repeat (apply elem_of_cons in Hin as [Hin | Hin]; [ discriminate | ]).
    by apply elem_of_nil in Hin.
Defined.


Lemma nothing_is_sent_without_daemon_witness :
  (@ensureDaemon sample_host (fun _ => down_world)).1 = FailedToStart
  /\ main_sent (@main sample_host sample_random sample_json sample_daemon
                  ["open"; "example.com"] 0 (fun _ => down_world)) = []
  /\ main_out (@main sample_host sample_random sample_json sample_daemon
                 ["open"; "example.com"] 0 (fun _ => down_world))
     = [ErrError "Failed to start daemon"].
Proof.
  assert (Hfail : (@ensureDaemon sample_host (fun _ => down_world)).1 = FailedToStart)
    by (vm_compute; reflexivity).
  split; [ exact Hfail | ].
  split.
  - exact (proj1 (@nothing_is_sent_without_daemon sample_host sample_random sample_json
                    sample_daemon ["open"; "example.com"] 0 (fun _ => down_world)
                    (or_intror Hfail))).
  - vm_compute. reflexivity.
Defined.
